(** * precios-riogrande: the offer router and the product router

    A shallow embedding of [src/server/api/routers/post.ts] and
    [src/server/api/routers/product/index.ts].

    The handlers are asynchronous TypeScript functions that await, one
    after the other, calls to two collaborators: the object storage (the
    AWS S3 client) and the relational store (the Prisma client).  Each
    [await] is sequential, so that a handler is a function from the state
    of the world before the request to an outcome (a value or a thrown
    exception) and the state of the world after it: a state and exception
    monad, [M].

    Conventions.
    - A request is an input together with the context of a protected
      procedure, which carries the identity of the logged-in user
      ([ctx.session.user.id]).  A procedure runs its zod schema on the
      input first; the body only runs on inputs the schema accepts.
    - A finite JavaScript number is represented by the decimal numeral
      that [Number.prototype.toString] prints for it.  [Prisma.Decimal] is
      built from that numeral, and so is the literal sent to the store in a
      [where] clause, which makes the representation exact for every use
      the routers make of a price.
    - The prisma schema is not among the sources.  The tables carry the
      columns the routers read and write; the relations between the
      entities, the unique name of a product and the type of the price
      column are modelled from the spec, in the definitions marked so. *)

From Stdlib Require Import ZArith List Ascii String Bool Lia Sorted.
From stdpp Require Import base option gmap strings list.

Import ListNotations.
Local Open Scope string_scope.
Local Open Scope Z_scope.

(** ** Exceptions *)

Inductive TRPC_ERROR_CODE :=
| BAD_REQUEST
| INTERNAL_SERVER_ERROR
| NOT_FOUND
| FORBIDDEN
| CONFLICT.

(** What a handler can throw.  [TRPCError] is thrown by the routers
    themselves, [InputError] by the input parser of a procedure (tRPC
    reports it with the issues of the schema), [Error] is the plain
    JavaScript error of the clock check, and the last two are the
    rejections of the collaborators. *)
Inductive Exn :=
| TRPCError (code : TRPC_ERROR_CODE) (message : option string)
| InputError (issues : list string)
| Error (reason : option string)
| S3ServiceException (name : string)
| PrismaClientKnownRequestError (code : string).

(** ** Prices *)

(** [coef * 10 ^ (- scale)]. *)
Record Decimal := { coef : Z; scale : nat }.

Definition pow10 (n : nat) : Z := 10 ^ Z.of_nat n.

(** Numeric comparison: both sides are brought to a common scale. *)
Definition dec_compare (a b : Decimal) : comparison :=
  (coef a * pow10 (scale b) ?= coef b * pow10 (scale a)).

Definition dec_eqb (a b : Decimal) : bool :=
  match dec_compare a b with Eq => true | _ => false end.

Definition dec_ltb (a b : Decimal) : bool :=
  match dec_compare a b with Lt => true | _ => false end.

Definition dec_positive (a : Decimal) : bool := 0 <? coef a.

(** [c] with [k] decimals less, halves rounded away from zero. *)
Definition round_half_away (c : Z) (k : nat) : Z :=
  Z.quot (c + Z.sgn c * (pow10 k / 2)) (pow10 k).

(** What a decimal column of [s] decimals keeps of [d]: [d] itself when
    it has no more decimals than the column, else [d] rounded. *)
Definition store_decimal (s : nat) (d : Decimal) : Decimal :=
  if (scale d <=? s)%nat then d
  else {| coef := round_half_away (coef d) (scale d - s); scale := s |}.

(** Written with the [s] decimals of the column, [d] has no more than
    [precision] digits. *)
Definition fits_column (precision s : nat) (d : Decimal) : bool :=
  let stored := store_decimal s d in
  Z.abs (coef stored) * pow10 (s - scale stored) <? pow10 precision.

(** ** The tables *)

Module Post.
Record t := {
  id : string;
  productId : string;
  commerceId : string;
  image : string;
  price : Decimal;
  publishDate : Z;        (* an instant, in milliseconds since the epoch *)
  authorId : string
}.
End Post.

Module Colaboration.
Record t := {
  id : string;
  postId : string;
  userId : string
}.
End Colaboration.

Module Product.
Record t := {
  id : string;
  name : string;
  categoryId : string
}.
End Product.

(** The relational store.  Rows are kept in the order the store returns
    them when a query gives no [orderBy]; [issued] counts the identifiers
    the store has handed out.  Of the commerces, the users and the
    categories the routers only ever use the keys; [price_precision] and
    [price_scale] are the type of the price column. *)
Record Db := {
  posts : list Post.t;
  colaborations : list Colaboration.t;
  products : list Product.t;
  commerces : list string;
  users : list string;
  categories : list string;
  price_precision : nat;
  price_scale : nat;
  issued : nat
}.

(** The store with other Offers, Colaborations or products, and [n]
    identifiers handed out. *)
Definition set_posts (d : Db) (rows : list Post.t) (n : nat) : Db :=
  {| posts := rows; colaborations := colaborations d; products := products d;
     commerces := commerces d; users := users d; categories := categories d;
     price_precision := price_precision d; price_scale := price_scale d;
     issued := n |}.

Definition set_colaborations (d : Db) (rows : list Colaboration.t) (n : nat) : Db :=
  {| posts := posts d; colaborations := rows; products := products d;
     commerces := commerces d; users := users d; categories := categories d;
     price_precision := price_precision d; price_scale := price_scale d;
     issued := n |}.

Definition set_products (d : Db) (rows : list Product.t) (n : nat) : Db :=
  {| posts := posts d; colaborations := colaborations d; products := rows;
     commerces := commerces d; users := users d; categories := categories d;
     price_precision := price_precision d; price_scale := price_scale d;
     issued := n |}.

(** Modelled from the spec: an Offer references a Product, a Commerce
    and a User, its author, and the prisma schema gives its price a
    decimal column.  What the store answers to the creation of an Offer
    that connects these rows: P2020 when the price is out of the range of
    the column, P2025 when one of the rows it connects is missing, and
    nothing when it accepts the row. *)
Definition post_rejection (d : Db) (product commerce author : string)
    (price : Decimal) : option string :=
  if negb (fits_column (price_precision d) (price_scale d) price)
  then Some "P2020"
  else if existsb (fun q => String.eqb (Product.id q) product) (products d)
          && existsb (String.eqb commerce) (commerces d)
          && existsb (String.eqb author) (users d)
       then None
       else Some "P2025".

(** Modelled from the spec: a Colaboration links a User to an Offer.
    What the store answers to the creation of a Colaboration that
    connects them: P2025 when one of the two is missing. *)
Definition colaboration_rejection (d : Db) (post user : string) : option string :=
  if existsb (fun p => String.eqb (Post.id p) post) (posts d)
     && existsb (String.eqb user) (users d)
  then None
  else Some "P2025".

(** Modelled from the spec: a Product belongs to a Category, and its
    name is a unique field.  What the store answers to a write of a
    product with this name and category, [others] being the products the
    write leaves alone: P2002 when one of them has the name, P2003 when
    the category is missing. *)
Definition product_rejection (d : Db) (others : list Product.t)
    (name categoryId : string) : option string :=
  if existsb (fun q => String.eqb (Product.name q) name) others
  then Some "P2002"
  else if existsb (String.eqb categoryId) (categories d)
       then None
       else Some "P2003".

(** ** The object storage *)

Record S3Object := { ContentType : string; Body : string }.

Inductive S3Command :=
| HeadObjectCommand (Bucket Key : string)
| CopyObjectCommand (CopySource Bucket Key : string)
| DeleteObjectCommand (Bucket Key : string).

(** How the backend answers a copy: it completes and confirms, it rejects
    the request, or it answers without a [CopyObjectResult] (and then the
    destination may or may not have been written). *)
Inductive CopyBehaviour :=
| CopyCompletes
| CopyRejects (name : string)
| CopyUnconfirmed (written : bool).

(** The bucket contents, keyed by bucket and key, the commands sent so
    far (oldest first), and the health of the backend: a head or a delete
    request is rejected with [name] when the corresponding field is
    [Some name]. *)
Record S3 := {
  objects : gmap (string * string) S3Object;
  sent : list S3Command;
  head_failure : option string;
  copy_behaviour : CopyBehaviour;
  delete_failure : option string
}.

Record CopyObjectOutput := { CopyObjectResult : option string }.

(** ** The world and the monad *)

Record World := {
  clock : Z;              (* the current instant, milliseconds since the epoch *)
  s3 : S3;
  db : Db
}.

Definition with_s3 (w : World) (s : S3) : World :=
  {| clock := clock w; s3 := s; db := db w |}.

Definition with_db (w : World) (d : Db) : World :=
  {| clock := clock w; s3 := s3 w; db := d |}.

Definition M (A : Type) : Type := World -> (Exn + A) * World.

Definition ret {A} (a : A) : M A := fun w => (inr a, w).

Definition throw {A} (e : Exn) : M A := fun w => (inl e, w).

Definition bind {A B} (c : M A) (k : A -> M B) : M B :=
  fun w =>
    match c w with
    | (inr a, w') => k a w'
    | (inl e, w') => (inl e, w')
    end.

(** [promise.catch(handler)]. *)
Definition catch {A} (c : M A) (handler : Exn -> M A) : M A :=
  fun w =>
    match c w with
    | (inr a, w') => (inr a, w')
    | (inl e, w') => handler e w'
    end.

Notation "x <- c ;; k" := (bind c (fun x => k))
  (at level 100, c at next level, right associativity).

(** ** luxon: the part of [DateTime] the routers use *)

Inductive Zone :=
| FixedOffsetZone (offset : Z)          (* minutes east of UTC *)
| InvalidZone (zoneName : string).

(** The zone luxon makes of the specifier ["UTC-3"]. *)
Definition UTC_minus_3 : Zone := FixedOffsetZone (-180).

Record DateTime := { ts : Z; zone : Zone }.

(** [DateTime.now().setZone(z)] *)
Definition DateTime_now_setZone (z : Zone) : M DateTime :=
  fun w => (inr {| ts := clock w; zone := z |}, w).

Definition isValid (dt : DateTime) : bool :=
  match zone dt with
  | FixedOffsetZone _ => true
  | InvalidZone _ => false
  end.

Definition invalidReason (dt : DateTime) : option string :=
  match zone dt with
  | FixedOffsetZone _ => None
  | InvalidZone _ => Some "unsupported zone"
  end.

Definition minute_ms : Z := 60000.
Definition day_ms : Z := 86400000.

(** [dt.startOf("day")]: midnight of the local calendar day of [dt]. *)
Definition startOf_day (dt : DateTime) : DateTime :=
  match zone dt with
  | FixedOffsetZone offset =>
      let local := ts dt + offset * minute_ms in
      {| ts := local - local mod day_ms - offset * minute_ms; zone := zone dt |}
  | InvalidZone _ => dt
  end.

(** [dt.toUTC().toISO()]: the ISO text of a valid [DateTime] names its
    instant, which is what the store compares. *)
Definition toUTC_toISO (dt : DateTime) : Z := ts dt.

(** ** zod: the checks of the input schemas *)

Definition is_hex_digit (c : ascii) : bool :=
  let n := nat_of_ascii c in
  ((48 <=? n) && (n <=? 57) || (65 <=? n) && (n <=? 70)
   || (97 <=? n) && (n <=? 102))%nat.

Fixpoint hex_run (n : nat) (s : string) : option string :=
  match n with
  | O => Some s
  | S n' =>
      match s with
      | String c r => if is_hex_digit c then hex_run n' r else None
      | EmptyString => None
      end
  end.

Definition dash (s : string) : option string :=
  match s with
  | String c r => if Ascii.eqb c "-" then Some r else None
  | EmptyString => None
  end.

(** Groups of hexadecimal digits separated by dashes; what is left of
    the text after the last group. *)
Fixpoint hex_groups (groups : list nat) (s : string) : option string :=
  match groups with
  | [] => Some s
  | n :: rest =>
      match hex_run n s with
      | Some r =>
          match rest with
          | [] => Some r
          | _ :: _ =>
              match dash r with
              | Some r' => hex_groups rest r'
              | None => None
              end
          end
      | None => None
      end
  end.

(** [z.string().uuid()]: five groups of 8, 4, 4, 4 and 12 hexadecimal
    digits separated by dashes, and nothing else. *)
Definition z_uuid (s : string) : bool :=
  match hex_groups [8; 4; 4; 4; 12]%nat s with
  | Some EmptyString => true
  | _ => false
  end.

(** [z.string().nonempty()] *)
Definition z_nonempty (s : string) : bool :=
  match s with EmptyString => false | String _ _ => true end.

(** [z.string().nonempty({ message }).pipe(z.string().uuid())] *)
Definition z_nonempty_uuid (message s : string) : list string :=
  if z_nonempty s then (if z_uuid s then [] else ["Invalid uuid"])
  else [message].

(** A procedure: the schema first, the body on accepted inputs only. *)
Definition procedure {I A} (schema : I -> list string) (body : I -> M A)
    (input : I) : M A :=
  match schema input with
  | [] => body input
  | issues => throw (InputError issues)
  end.

(** The context of a protected procedure. *)
Record Ctx := { session_user_id : string }.

(** ** The S3 client *)

(** A copy source is written [bucket/key]. *)
Fixpoint split_at_slash (s : string) : option (string * string) :=
  match s with
  | EmptyString => None
  | String c r =>
      if Ascii.eqb c "/" then Some (EmptyString, r)
      else match split_at_slash r with
           | Some (b, k) => Some (String c b, k)
           | None => None
           end
  end.

Definition record_command (c : S3Command) (s : S3) : S3 :=
  {| objects := objects s; sent := sent s ++ [c];
     head_failure := head_failure s; copy_behaviour := copy_behaviour s;
     delete_failure := delete_failure s |}.

Definition with_objects (s : S3) (o : gmap (string * string) S3Object) : S3 :=
  {| objects := o; sent := sent s;
     head_failure := head_failure s; copy_behaviour := copy_behaviour s;
     delete_failure := delete_failure s |}.

Definition hex_value (c : ascii) : option nat :=
  let n := nat_of_ascii c in
  if ((48 <=? n) && (n <=? 57))%nat then Some (n - 48)%nat
  else if ((65 <=? n) && (n <=? 70))%nat then Some (n - 55)%nat
  else if ((97 <=? n) && (n <=? 102))%nat then Some (n - 87)%nat
  else None.

(** Percent-decoding: a percent sign and two hexadecimal digits stand
    for one byte; any other character stands for itself. *)
Fixpoint url_decode (s : string) : string :=
  match s with
  | EmptyString => EmptyString
  | String c r =>
      if Ascii.eqb c "%" then
        match r with
        | String h (String l r') =>
            match hex_value h, hex_value l with
            | Some a, Some b =>
                String (ascii_of_nat (16 * a + b)) (url_decode r')
            | _, _ => String c (url_decode r)
            end
        | _ => String c (url_decode r)
        end
      else String c (url_decode r)
  end.

(** The object a copy source names: the backend splits the header into
    bucket and key and percent-decodes the key. *)
Definition copy_source (s : S3) (CopySource : string) : option S3Object :=
  match split_at_slash CopySource with
  | Some (b, k) => objects s !! (b, url_decode k)
  | None => None
  end.

(** Stands for the entity tag of an object, a digest of its body. *)
Definition ETag (o : S3Object) : string := Body o.

(** [s3.send(new HeadObjectCommand({ Bucket, Key }))] *)
Definition send_HeadObject (Bucket Key : string) : M unit :=
  fun w =>
    let s := record_command (HeadObjectCommand Bucket Key) (s3 w) in
    match head_failure s with
    | Some name => (inl (S3ServiceException name), with_s3 w s)
    | None =>
        match objects s !! (Bucket, Key) with
        | Some _ => (inr tt, with_s3 w s)
        | None => (inl (S3ServiceException "NotFound"), with_s3 w s)
        end
    end.

(** [s3.send(new CopyObjectCommand({ CopySource, Bucket, Key }))] *)
Definition send_CopyObject (CopySource Bucket Key : string) : M CopyObjectOutput :=
  fun w =>
    let s := record_command (CopyObjectCommand CopySource Bucket Key) (s3 w) in
    match copy_behaviour s with
    | CopyRejects name => (inl (S3ServiceException name), with_s3 w s)
    | CopyCompletes =>
        match copy_source s CopySource with
        | Some o =>
            (inr {| CopyObjectResult := Some (ETag o) |},
             with_s3 w (with_objects s (<[(Bucket, Key) := o]> (objects s))))
        | None => (inl (S3ServiceException "NoSuchKey"), with_s3 w s)
        end
    | CopyUnconfirmed written =>
        (inr {| CopyObjectResult := None |},
         match copy_source s CopySource with
         | Some o =>
             if written
             then with_s3 w (with_objects s (<[(Bucket, Key) := o]> (objects s)))
             else with_s3 w s
         | None => with_s3 w s
         end)
    end.

(** [s3.send(new DeleteObjectCommand({ Bucket, Key }))]; deleting a key
    that holds nothing succeeds. *)
Definition send_DeleteObject (Bucket Key : string) : M unit :=
  fun w =>
    let s := record_command (DeleteObjectCommand Bucket Key) (s3 w) in
    match delete_failure s with
    | Some name => (inl (S3ServiceException name), with_s3 w s)
    | None => (inr tt, with_s3 w (with_objects s (delete (Bucket, Key) (objects s))))
    end.

(** ** The inputs of the procedures *)

Module PublishInput.
Record t := {
  productId : string;
  commerceId : string;
  imageKey : string;
  price : Decimal
}.
End PublishInput.

Module ProductUpdateInput.
Record t := {
  id : string;
  name : string;
  categoryId : string
}.
End ProductUpdateInput.

(** What [publish] resolves to: the created post, the created
    colaboration, or [undefined]. *)
Inductive PublishResult :=
| ReturnsPost (post : Post.t)
| ReturnsColaboration (colaboration : Colaboration.t)
| ReturnsUndefined.

(** A row of the daily feed: the selected columns of the post and
    [_count.colaborations]. *)
Record DailyOffer := { offer : Post.t; _count_colaborations : nat }.

(** [~/env.mjs] *)
Record Env := { S3_BUCKET_NAME : string; S3_BUCKET_URL : string }.

Definition code_name (c : TRPC_ERROR_CODE) : string :=
  match c with
  | BAD_REQUEST => "BAD_REQUEST"
  | INTERNAL_SERVER_ERROR => "INTERNAL_SERVER_ERROR"
  | NOT_FOUND => "NOT_FOUND"
  | FORBIDDEN => "FORBIDDEN"
  | CONFLICT => "CONFLICT"
  end.

(** [error.code] *)
Definition error_code (e : Exn) : option string :=
  match e with
  | PrismaClientKnownRequestError c => Some c
  | TRPCError c _ => Some (code_name c)
  | _ => None
  end.

(** ** Ordering and [distinct] of [findMany] *)

Section FindMany.
Context {A : Type}.

Fixpoint insert_by (leb : A -> A -> bool) (x : A) (l : list A) : list A :=
  match l with
  | [] => [x]
  | y :: r => if leb x y then x :: l else y :: insert_by leb x r
  end.

(** [orderBy]: a stable sort, rows that compare equal keep the order
    of the table. *)
Definition order_by (leb : A -> A -> bool) (l : list A) : list A :=
  fold_right (insert_by leb) [] l.

(** [distinct]: of the rows that share a key, the first one of the
    ordered result is kept. *)
Fixpoint distinct_from (key : A -> string) (seen : gset string) (l : list A)
    : list A :=
  match l with
  | [] => []
  | x :: r =>
      if bool_decide (key x ∈ seen) then distinct_from key seen r
      else x :: distinct_from key ({[ key x ]} ∪ seen) r
  end.

Definition distinct_by (key : A -> string) (l : list A) : list A :=
  distinct_from key ∅ l.
End FindMany.

(** [orderBy: [{ price: "asc" }, { publishDate: "desc" }]] *)
Definition price_asc_publishDate_desc (a b : Post.t) : bool :=
  dec_ltb (Post.price a) (Post.price b)
  || dec_eqb (Post.price a) (Post.price b)
     && (Post.publishDate b <=? Post.publishDate a).

Section Routers.

Variable env : Env.

(** The identifiers the store generates, in the order it issues them. *)
Variable newId : nat -> string.

(** *** The Prisma client *)

(** [ctx.db.post.findFirst({ where })] *)
Definition db_post_findFirst (where_ : Post.t -> bool) : M (option Post.t) :=
  fun w => (inr (find where_ (posts (db w))), w).

(** [ctx.db.post.findUnique({ where: { id } })] *)
Definition db_post_findUnique (id : string) : M (option Post.t) :=
  fun w => (inr (find (fun p => String.eqb (Post.id p) id) (posts (db w))), w).

(** Modelled from the spec: the defaults of the columns of an Offer that
    the handlers do not pass, [id] and [publishDate], declared in the
    prisma schema (an Offer is identified by its id, and its publish
    date is the instant of its creation), and the relations and the price
    column of [post_rejection].

    [ctx.db.post.create({ data })], with the identifiers that [data]
    connects.  The store rejects the row or keeps it, the price as the
    column keeps it, and returns the row it keeps. *)
Definition db_post_create (product commerce image : string) (price : Decimal)
    (author : string) : M Post.t :=
  fun w =>
    let d := db w in
    match post_rejection d product commerce author price with
    | Some code => (inl (PrismaClientKnownRequestError code), w)
    | None =>
        let post :=
          {| Post.id := newId (issued d);
             Post.productId := product;
             Post.commerceId := commerce;
             Post.image := image;
             Post.price := store_decimal (price_scale d) price;
             Post.publishDate := clock w;
             Post.authorId := author |} in
        (inr post, with_db w (set_posts d (posts d ++ [post]) (S (issued d))))
    end.

(** [ctx.db.post.delete({ where: { id } })]; [id] is the key of the
    table. *)
Definition db_post_delete (id : string) : M Post.t :=
  fun w =>
    let d := db w in
    match find (fun p => String.eqb (Post.id p) id) (posts d) with
    | Some post =>
        (inr post,
         with_db w
           (set_posts d
              (List.filter (fun p => negb (String.eqb (Post.id p) id)) (posts d))
              (issued d)))
    | None => (inl (PrismaClientKnownRequestError "P2025"), w)
    end.

(** Modelled from the spec: the relations of [colaboration_rejection].

    [ctx.db.colaboration.create({ data })], with the identifiers that
    [data] connects. *)
Definition db_colaboration_create (post user : string) : M Colaboration.t :=
  fun w =>
    let d := db w in
    match colaboration_rejection d post user with
    | Some code => (inl (PrismaClientKnownRequestError code), w)
    | None =>
        let colaboration :=
          {| Colaboration.id := newId (issued d);
             Colaboration.postId := post;
             Colaboration.userId := user |} in
        (inr colaboration,
         with_db w
           (set_colaborations d (colaborations d ++ [colaboration])
              (S (issued d))))
    end.

(** Modelled from the spec: the unique name and the category of
    [product_rejection].

    [ctx.db.product.update({ data, where: { id } })]: the row must exist
    (P2025), and the other products and the categories must allow the new
    name and category. *)
Definition db_product_update (id name categoryId : string) : M Product.t :=
  fun w =>
    let d := db w in
    match find (fun q => String.eqb (Product.id q) id) (products d) with
    | None => (inl (PrismaClientKnownRequestError "P2025"), w)
    | Some _ =>
        match product_rejection d
                (List.filter (fun q => negb (String.eqb (Product.id q) id))
                   (products d))
                name categoryId with
        | Some code => (inl (PrismaClientKnownRequestError code), w)
        | None =>
            let row := {| Product.id := id; Product.name := name;
                          Product.categoryId := categoryId |} in
            (inr row,
             with_db w
               (set_products d
                  (map (fun q => if String.eqb (Product.id q) id
                                 then row else q) (products d))
                  (issued d)))
        end
    end.

(** *** post.ts *)

Definition IMAGE_PREFIX : string := "pre-".

Definition validateS3image (imageKeyWithoutPrefix : string) : M string :=
  _ <- catch
         (send_HeadObject (S3_BUCKET_NAME env)
            (IMAGE_PREFIX +:+ imageKeyWithoutPrefix))
         (fun _ => throw (TRPCError BAD_REQUEST (Some "IMAGE_KEY_NOT_FOUND"))) ;;
  copyOutput <- send_CopyObject
                  ((S3_BUCKET_NAME env +:+ "/")
                   +:+ (IMAGE_PREFIX +:+ imageKeyWithoutPrefix))
                  (S3_BUCKET_NAME env)
                  imageKeyWithoutPrefix ;;
  match CopyObjectResult copyOutput with
  | None => throw (TRPCError INTERNAL_SERVER_ERROR (Some "IMAGE_VALIDATION_ERROR"))
  | Some _ =>
      _ <- send_DeleteObject (S3_BUCKET_NAME env)
             (IMAGE_PREFIX +:+ imageKeyWithoutPrefix) ;;
      ret (S3_BUCKET_URL env +:+ "/" +:+ imageKeyWithoutPrefix)
  end.

(** The schema shared by [publish] and [create]. *)
Definition publish_schema (input : PublishInput.t) : list string :=
  z_nonempty_uuid "El producto no debe quedar vacio" (PublishInput.productId input)
  ++ z_nonempty_uuid "El comercio no debe quedar vacio" (PublishInput.commerceId input)
  ++ (if z_nonempty (PublishInput.imageKey input) then []
      else ["La imagen es requerida"])
  ++ (if dec_positive (PublishInput.price input) then []
      else ["Ingrese un precio valido"]).

(** The [where] clause of the duplicate test of [publish]. *)
Definition publish_where (gte : Z) (input : PublishInput.t) (p : Post.t) : bool :=
  (gte <=? Post.publishDate p)
  && String.eqb (Post.productId p) (PublishInput.productId input)
  && String.eqb (Post.commerceId p) (PublishInput.commerceId input)
  && dec_eqb (Post.price p) (PublishInput.price input).

Definition publish_mutation (ctx : Ctx) (input : PublishInput.t) : M PublishResult :=
  now <- DateTime_now_setZone UTC_minus_3 ;;
  let now := startOf_day now in
  if negb (isValid now) then throw (Error (invalidReason now))
  else
    existentPost <- db_post_findFirst (publish_where (toUTC_toISO now) input) ;;
    match existentPost with
    | Some existentPost =>
        if String.eqb (Post.authorId existentPost) (session_user_id ctx)
        then ret ReturnsUndefined
        else
          colaboration <- db_colaboration_create (Post.id existentPost)
                            (session_user_id ctx) ;;
          ret (ReturnsColaboration colaboration)
    | None =>
        (* Creates the post *)
        imageUrl <- validateS3image (PublishInput.imageKey input) ;;
        post <- db_post_create (PublishInput.productId input)
                  (PublishInput.commerceId input) imageUrl
                  (PublishInput.price input) (session_user_id ctx) ;;
        ret (ReturnsPost post)
    end.

Definition publish (ctx : Ctx) : PublishInput.t -> M PublishResult :=
  procedure publish_schema (publish_mutation ctx).

Definition create_mutation (ctx : Ctx) (input : PublishInput.t) : M Post.t :=
  imageUrl <- validateS3image (PublishInput.imageKey input) ;;
  db_post_create (PublishInput.productId input)
    (PublishInput.commerceId input) imageUrl
    (PublishInput.price input) (session_user_id ctx).

Definition create (ctx : Ctx) : PublishInput.t -> M Post.t :=
  procedure publish_schema (create_mutation ctx).

Definition count_colaborations (d : Db) (p : Post.t) : nat :=
  length (List.filter (fun c => String.eqb (Colaboration.postId c) (Post.id p))
            (colaborations d)).

Definition getDailyBestOffers (ctx : Ctx) : M (list DailyOffer) :=
  now <- DateTime_now_setZone UTC_minus_3 ;;
  let now := startOf_day now in
  fun w =>
    let d := db w in
    let rows :=
      distinct_by Post.productId
        (order_by price_asc_publishDate_desc
           (List.filter (fun p => toUTC_toISO now <=? Post.publishDate p) (posts d))) in
    (inr (map (fun p => {| offer := p;
                           _count_colaborations := count_colaborations d p |}) rows),
     w).

Definition deleteOwnPost_schema (id : string) : list string :=
  if z_uuid id then [] else ["Invalid uuid"].

Definition deleteOwnPost_mutation (ctx : Ctx) (id : string) : M Post.t :=
  let user := session_user_id ctx in
  post <- db_post_findUnique id ;;
  match post with
  | None => throw (TRPCError NOT_FOUND None)
  | Some post =>
      if negb (String.eqb (Post.authorId post) user)
      then throw (TRPCError FORBIDDEN (Some "No eres el autor de la publicación"))
      else db_post_delete id
  end.

Definition deleteOwnPost (ctx : Ctx) : string -> M Post.t :=
  procedure deleteOwnPost_schema (deleteOwnPost_mutation ctx).

(** *** product/index.ts *)

Definition product_update_schema (input : ProductUpdateInput.t) : list string :=
  (if z_uuid (ProductUpdateInput.id input) then [] else ["Invalid uuid"])
  ++ (if z_uuid (ProductUpdateInput.categoryId input) then [] else ["Invalid uuid"]).

(** [update]: resolves to the updated row, or to [undefined] when the
    handler of [catch] returns without throwing. *)
Definition product_update_mutation (ctx : Ctx) (input : ProductUpdateInput.t)
    : M (option Product.t) :=
  catch
    (row <- db_product_update (ProductUpdateInput.id input)
              (ProductUpdateInput.name input)
              (ProductUpdateInput.categoryId input) ;;
     ret (Some row))
    (fun error =>
       if bool_decide (error_code error = Some "P2002")
       then throw (TRPCError CONFLICT (Some "Ya existe un producto con ese nombre"))
       else ret None).

Definition product_update (ctx : Ctx) : ProductUpdateInput.t -> M (option Product.t) :=
  procedure product_update_schema (product_update_mutation ctx).

End Routers.

(** ** Notions used by the statements *)

(** The start of the current day at UTC-3, as an instant. *)
Definition dayStart (w : World) : Z :=
  toUTC_toISO (startOf_day {| ts := clock w; zone := UTC_minus_3 |}).

(** Two decimals denote the same number. *)
Definition same_price (a b : Decimal) : Prop :=
  coef a * pow10 (scale b) = coef b * pow10 (scale a).

(** [o] is an Offer of today for the product, the commerce and the
    price of [input]. *)
Definition matching_offer (w : World) (input : PublishInput.t) (o : Post.t) : Prop :=
  dayStart w <= Post.publishDate o
  /\ Post.productId o = PublishInput.productId input
  /\ Post.commerceId o = PublishInput.commerceId input
  /\ same_price (Post.price o) (PublishInput.price input).

(** The answer of the duplicate query of [publish] in [w]. *)
Definition existentPost (w : World) (input : PublishInput.t) : option Post.t :=
  find (publish_where (dayStart w) input) (posts (db w)).

(** The Offer [publish] and [create] write for [input] once the image is
    at [imageUrl]. *)
Definition new_offer (newId : nat -> string) (ctx : Ctx) (input : PublishInput.t)
    (imageUrl : string) (w : World) : Post.t :=
  {| Post.id := newId (issued (db w));
     Post.productId := PublishInput.productId input;
     Post.commerceId := PublishInput.commerceId input;
     Post.image := imageUrl;
     Post.price := store_decimal (price_scale (db w)) (PublishInput.price input);
     Post.publishDate := clock w;
     Post.authorId := session_user_id ctx |}.

(** The rows an Offer for [input] by the user of [ctx] connects are in
    the store. *)
Definition references_exist (w : World) (ctx : Ctx) (input : PublishInput.t) : Prop :=
  In (PublishInput.productId input) (map Product.id (products (db w)))
  /\ In (PublishInput.commerceId input) (commerces (db w))
  /\ In (session_user_id ctx) (users (db w)).

(** What the store answers to the Offer [publish] and [create] write
    for [input]. *)
Definition offer_rejection (w : World) (ctx : Ctx) (input : PublishInput.t)
    : option string :=
  post_rejection (db w) (PublishInput.productId input)
    (PublishInput.commerceId input) (session_user_id ctx)
    (PublishInput.price input).

(** The price of [input] is in the range of the price column. *)
Definition price_fits (w : World) (input : PublishInput.t) : Prop :=
  fits_column (price_precision (db w)) (price_scale (db w))
    (PublishInput.price input) = true.

(** Characters that percent-encoding leaves alone: letters, digits,
    and the hyphen, underscore, dot and tilde. *)
Definition url_safe_char (c : ascii) : bool :=
  let n := nat_of_ascii c in
  ((48 <=? n) && (n <=? 57) || (65 <=? n) && (n <=? 90)
   || (97 <=? n) && (n <=? 122)
   || (n =? 45) || (n =? 46) || (n =? 95) || (n =? 126))%nat.

Fixpoint url_safe (s : string) : bool :=
  match s with
  | EmptyString => true
  | String c r => url_safe_char c && url_safe r
  end.

(** The key the backend reads when the router copies the temporary
    object of [k]. *)
Definition copied_from (env : Env) (k : string) : string * string :=
  (S3_BUCKET_NAME env, url_decode (IMAGE_PREFIX +:+ k)).

(** Bucket names hold no slash. *)
Fixpoint no_slash (s : string) : bool :=
  match s with
  | EmptyString => true
  | String c r => negb (Ascii.eqb c "/") && no_slash r
  end.

(** The key of the temporary object of [k], and of its permanent copy. *)
Definition temporary (env : Env) (k : string) : string * string :=
  (S3_BUCKET_NAME env, IMAGE_PREFIX +:+ k).

Definition permanent (env : Env) (k : string) : string * string :=
  (S3_BUCKET_NAME env, k).

(** The identity of a post within the table. *)
Definition has_id (i : string) (p : Post.t) : bool := String.eqb (Post.id p) i.

(** [a] is cheaper than [b], or costs the same and is not older. *)
Definition at_least_as_good (a b : Post.t) : Prop :=
  coef (Post.price a) * pow10 (scale (Post.price b))
    < coef (Post.price b) * pow10 (scale (Post.price a))
  \/ (same_price (Post.price a) (Post.price b)
      /\ Post.publishDate b <= Post.publishDate a).

(** ** Sample data

    A small deployment and a few worlds, used to run the handlers. *)

Module Sample.

Definition env : Env :=
  {| S3_BUCKET_NAME := "precios"; S3_BUCKET_URL := "https://cdn.example.org" |}.

(** The store numbers its identifiers. *)
Definition ids (n : nat) : string :=
  "00000000-0000-4000-8000-"
  +:+ String.concat "" (repeat "0" (11 - n))
  +:+ String.concat "" (repeat "1" (S n)).

Definition alice : Ctx := {| session_user_id := "alice" |}.
Definition bob : Ctx := {| session_user_id := "bob" |}.

Definition yerba : string := "aaaaaaaa-aaaa-4aaa-8aaa-aaaaaaaaaaaa".
Definition almacen : string := "bbbbbbbb-bbbb-4bbb-8bbb-bbbbbbbbbbbb".

(** 10.00 and 10.01 *)
Definition ten : Decimal := {| coef := 1000; scale := 2 |}.
Definition ten_01 : Decimal := {| coef := 1001; scale := 2 |}.

Definition photo : S3Object := {| ContentType := "image/png"; Body := "PNG" |}.

(** A healthy bucket that holds the temporary object of the key "abc". *)
Definition bucket : S3 :=
  {| objects := {[ ("precios", "pre-abc") := photo ]};
     sent := [];
     head_failure := None;
     copy_behaviour := CopyCompletes;
     delete_failure := None |}.

Definition empty_bucket : S3 :=
  {| objects := ∅; sent := []; head_failure := None;
     copy_behaviour := CopyCompletes; delete_failure := None |}.

Definition unconfirming_bucket : S3 :=
  {| objects := objects bucket; sent := []; head_failure := None;
     copy_behaviour := CopyUnconfirmed false; delete_failure := None |}.

Definition undeletable_bucket : S3 :=
  {| objects := objects bucket; sent := []; head_failure := None;
     copy_behaviour := CopyCompletes; delete_failure := Some "InternalError" |}.

(** 14 November 2023, 22:13:20 UTC; the day at UTC-3 started at
    03:00:00 UTC, the instant 1699930800000. *)
Definition today : Z := 1700000000000.

(** A store without Offers: one product, one commerce, one category,
    two users, and a price column of 65 digits, 30 of them decimals. *)
Definition no_rows : Db :=
  {| posts := []; colaborations := [];
     products := [ {| Product.id := yerba; Product.name := "Yerba";
                      Product.categoryId := almacen |} ];
     commerces := [almacen];
     users := ["alice"; "bob"];
     categories := [almacen];
     price_precision := 65;
     price_scale := 30;
     issued := 0 |}.

Definition offer_at (id : string) (price : Decimal) (at_ : Z) (author : string)
    : Post.t :=
  {| Post.id := id; Post.productId := yerba; Post.commerceId := almacen;
     Post.image := "https://cdn.example.org/old"; Post.price := price;
     Post.publishDate := at_; Post.authorId := author |}.

Definition with_posts (l : list Post.t) : Db :=
  set_posts no_rows l (length l).

Definition input_at (price : Decimal) : PublishInput.t :=
  {| PublishInput.productId := yerba; PublishInput.commerceId := almacen;
     PublishInput.imageKey := "abc"; PublishInput.price := price |}.

(** Nothing published yet. *)
Definition fresh : World := {| clock := today; s3 := bucket; db := no_rows |}.

(** Alice published the product at 10.00 an hour ago. *)
Definition alice_offer : Post.t := offer_at (ids 0) ten (today - 3600000) "alice".

Definition published : World :=
  {| clock := today; s3 := bucket; db := with_posts [alice_offer] |}.

(** Alice published the product at 10.01 an hour ago. *)
Definition published_10_01 : World :=
  {| clock := today; s3 := bucket;
     db := with_posts [offer_at (ids 0) ten_01 (today - 3600000) "alice"] |}.

Definition missing_image : World :=
  {| clock := today; s3 := empty_bucket; db := no_rows |}.

Definition unconfirmed_copy : World :=
  {| clock := today; s3 := unconfirming_bucket; db := no_rows |}.

Definition failing_delete : World :=
  {| clock := today; s3 := undeletable_bucket; db := no_rows |}.

(** One product at 50, at 30 two hours ago and at 30 one hour ago. *)
Definition fifty : Post.t :=
  offer_at (ids 0) {| coef := 50; scale := 0 |} (today - 10800000) "alice".
Definition thirty_early : Post.t :=
  offer_at (ids 1) {| coef := 30; scale := 0 |} (today - 7200000) "bob".
Definition thirty_late : Post.t :=
  offer_at (ids 2) {| coef := 3000; scale := 2 |} (today - 3600000) "alice".

Definition feed : World :=
  {| clock := today; s3 := bucket;
     db := with_posts [fifty; thirty_early; thirty_late] |}.

(** One product; the request renames another one, which does not exist. *)
Definition catalogue : World :=
  {| clock := today; s3 := bucket; db := no_rows |}.

Definition rename_unknown : ProductUpdateInput.t :=
  {| ProductUpdateInput.id := "cccccccc-cccc-4ccc-8ccc-cccccccccccc";
     ProductUpdateInput.name := "Azucar";
     ProductUpdateInput.categoryId := almacen |}.

End Sample.

(** ** The other procedures of the routers *)

(** A post with the colaborations the [select] joins in.  The rows of
    the other related tables (product, commerce, author) are not part of
    the store kept here; the post carries their keys. *)
Module PostDetail.
Record t := {
  post : Post.t;
  colaborations : list Colaboration.t
}.
End PostDetail.

Module ProductCreateInput.
Record t := {
  name : string;
  categoryId : string
}.
End ProductCreateInput.

Module SignedUrlInput.
Record t := {
  mimetype : string;
  length : Decimal
}.
End SignedUrlInput.

(** What a presigned URL for a [PutObjectCommand] commits the uploader
    to: the bucket and key, the signed headers, and the life time. *)
Record PresignedPut := {
  put_Bucket : string;
  put_Key : string;
  put_ContentType : string;
  put_ContentLength : Decimal;
  put_Metadata_author : string;
  put_expiresIn : Z
}.

Record SignedUrl := { url : PresignedPut; key : string; expiresIn : Z }.

(** The bucket after a client has PUT an object through a presigned
    URL: the object is stored under the key the URL was signed for. *)
Definition uploaded (u : PresignedPut) (o : S3Object) (w : World) : World :=
  with_s3 w
    (with_objects (s3 w) (<[(put_Bucket u, put_Key u) := o]> (objects (s3 w)))).

(** [orderBy: { publishDate: "desc" }] *)
Definition publishDate_desc (a b : Post.t) : bool :=
  Post.publishDate b <=? Post.publishDate a.

(** [colaborations: true] *)
Definition colaborations_of (d : Db) (p : Post.t) : list Colaboration.t :=
  List.filter (fun c => String.eqb (Colaboration.postId c) (Post.id p))
    (colaborations d).

Definition detail (d : Db) (p : Post.t) : PostDetail.t :=
  {| PostDetail.post := p; PostDetail.colaborations := colaborations_of d p |}.

Section OtherProcedures.

Variable env : Env.
Variable newId : nat -> string.

(** [getImageSignedUrl]: the mimetype is one of four. *)
Definition getImageSignedUrl_schema (input : SignedUrlInput.t) : list string :=
  if existsb (String.eqb (SignedUrlInput.mimetype input))
       ["image/jpeg"; "image/jpg"; "image/png"; "image/webp"]
  then [] else ["Tipo de imagen invalido"].

(** The body of [getImageSignedUrl]; [randomUUID] is what
    [crypto.randomUUID()] returns in this call.  Signing is local to the
    client library: nothing is sent to the bucket. *)
Definition getImageSignedUrl_query (randomUUID : string) (ctx : Ctx)
    (input : SignedUrlInput.t) : M SignedUrl :=
  let key := randomUUID in
  let expiresIn := 3600 in
  ret {| url := {| put_Bucket := S3_BUCKET_NAME env;
                   put_Key := IMAGE_PREFIX +:+ key;
                   put_ContentType := SignedUrlInput.mimetype input;
                   put_ContentLength := SignedUrlInput.length input;
                   put_Metadata_author := session_user_id ctx;
                   put_expiresIn := expiresIn |};
         key := key;
         expiresIn := expiresIn |}.

Definition getImageSignedUrl (randomUUID : string) (ctx : Ctx)
    : SignedUrlInput.t -> M SignedUrl :=
  procedure getImageSignedUrl_schema (getImageSignedUrl_query randomUUID ctx).

(** [getCount] *)
Definition getCount : M nat :=
  fun w => (inr (List.length (posts (db w))), w).

(** [getById] *)
Definition getById_schema (id : string) : list string :=
  if z_uuid id then [] else ["Invalid uuid"].

Definition getById_query (ctx : Ctx) (id : string) : M (option PostDetail.t) :=
  fun w =>
    (inr (option_map (detail (db w))
            (find (fun p => String.eqb (Post.id p) id) (posts (db w)))),
     w).

Definition getById (ctx : Ctx) : string -> M (option PostDetail.t) :=
  procedure getById_schema (getById_query ctx).

(** [getOwnPosts] *)
Definition getOwnPosts (ctx : Ctx) : M (list PostDetail.t) :=
  let user := session_user_id ctx in
  fun w =>
    (inr (map (detail (db w))
            (order_by publishDate_desc
               (List.filter (fun p => String.eqb (Post.authorId p) user)
                  (posts (db w))))),
     w).

(** Modelled from the spec: the unique name and the category of
    [product_rejection].

    [ctx.db.product.create({ data })]: the products and the categories
    must allow the name and the category. *)
Definition db_product_create (name categoryId : string) : M Product.t :=
  fun w =>
    let d := db w in
    match product_rejection d (products d) name categoryId with
    | Some code => (inl (PrismaClientKnownRequestError code), w)
    | None =>
        let row := {| Product.id := newId (issued d); Product.name := name;
                      Product.categoryId := categoryId |} in
        (inr row, with_db w (set_products d (products d ++ [row]) (S (issued d))))
    end.

Definition product_create_schema (input : ProductCreateInput.t) : list string :=
  (if z_nonempty (ProductCreateInput.name input) then []
   else ["String must contain at least 1 character(s)"])
  ++ (if z_uuid (ProductCreateInput.categoryId input) then [] else ["Invalid uuid"]).

(** [create] of the product router awaits the write and returns nothing. *)
Definition product_create_mutation (ctx : Ctx) (input : ProductCreateInput.t)
    : M unit :=
  _ <- db_product_create (ProductCreateInput.name input)
         (ProductCreateInput.categoryId input) ;;
  ret tt.

Definition product_create (ctx : Ctx) : ProductCreateInput.t -> M unit :=
  procedure product_create_schema (product_create_mutation ctx).

End OtherProcedures.

(** ** Notions used by the further statements *)

(** At most one Offer of today for a product, a commerce and a price. *)
Definition one_offer_per_key (w : World) : Prop :=
  forall p q,
    In p (posts (db w)) -> In q (posts (db w)) ->
    dayStart w <= Post.publishDate p -> dayStart w <= Post.publishDate q ->
    Post.productId p = Post.productId q ->
    Post.commerceId p = Post.commerceId q ->
    same_price (Post.price p) (Post.price q) ->
    p = q.

(** The backend answers every request as it should. *)
Definition healthy (s : S3) : Prop :=
  head_failure s = None /\ copy_behaviour s = CopyCompletes
  /\ delete_failure s = None.

(** ** Further sample data *)

Module Tour.

(** A bucket with two uploaded images. *)
Definition two_uploads : S3 :=
  {| objects := {[ ("precios", "pre-abc") := Sample.photo;
                   ("precios", "pre-def") := Sample.photo ]};
     sent := [];
     head_failure := None;
     copy_behaviour := CopyCompletes;
     delete_failure := None |}.

Definition morning : World :=
  {| clock := Sample.today; s3 := two_uploads; db := Sample.no_rows |}.

Definition second_input : PublishInput.t :=
  {| PublishInput.productId := Sample.yerba;
     PublishInput.commerceId := Sample.almacen;
     PublishInput.imageKey := "def";
     PublishInput.price := Sample.ten |}.

(** The world with the clock moved to [t]. *)
Definition at_ (t : Z) (w : World) : World :=
  {| clock := t; s3 := s3 w; db := db w |}.

Definition jpeg : SignedUrlInput.t :=
  {| SignedUrlInput.mimetype := "image/jpeg";
     SignedUrlInput.length := {| coef := 2048; scale := 0 |} |}.

Definition new_product : ProductCreateInput.t :=
  {| ProductCreateInput.name := "Azucar";
     ProductCreateInput.categoryId := Sample.almacen |}.

(** Bob found the same price half an hour ago. *)
Definition bob_offer : Post.t :=
  Sample.offer_at (Sample.ids 1) Sample.ten (Sample.today - 1800000) "bob".

(** Alice's Offer is stored before Bob's, and the other way round. *)
Definition alice_then_bob : World :=
  {| clock := Sample.today; s3 := Sample.bucket;
     db := Sample.with_posts [Sample.alice_offer; bob_offer] |}.

Definition bob_then_alice : World :=
  {| clock := Sample.today; s3 := Sample.bucket;
     db := Sample.with_posts [bob_offer; Sample.alice_offer] |}.

(** A session of a user the store does not hold. *)
Definition mallory : Ctx := {| session_user_id := "mallory" |}.

(** An input that names a product the store does not hold. *)
Definition unknown_product : PublishInput.t :=
  {| PublishInput.productId := "cccccccc-cccc-4ccc-8ccc-cccccccccccc";
     PublishInput.commerceId := Sample.almacen;
     PublishInput.imageKey := "abc";
     PublishInput.price := Sample.ten |}.

(** A price with 31 decimals. *)
Definition tiny : Decimal := {| coef := 1; scale := 31 |}.

(** A category the store does not hold. *)
Definition no_category : ProductCreateInput.t :=
  {| ProductCreateInput.name := "Azucar";
     ProductCreateInput.categoryId := Sample.yerba |}.

Definition rename_yerba : ProductUpdateInput.t :=
  {| ProductUpdateInput.id := Sample.yerba;
     ProductUpdateInput.name := "Yerba mate";
     ProductUpdateInput.categoryId := Sample.almacen |}.

End Tour.

(** * Properties *)

(** ** Strings and keys *)

Lemma length_append (a b : string) :
  String.length (a +:+ b) = (String.length a + String.length b)%nat.
Proof. induction a as [|c a IH]; simpl; [reflexivity | now rewrite IH]. Qed.

Lemma prefixed_ne (k : string) : IMAGE_PREFIX +:+ k <> k.
Proof.
  intros H. apply (f_equal String.length) in H.
  rewrite length_append in H. simpl in H. lia.
Qed.

Lemma temporary_ne_permanent (env : Env) (k : string) :
  temporary env k <> permanent env k.
Proof.
  unfold temporary, permanent. intros H.
  injection H as H. now apply prefixed_ne in H.
Qed.

(** The copy source the router writes names the temporary object. *)
Lemma split_at_slash_append (b k : string) :
  no_slash b = true -> split_at_slash ((b +:+ "/") +:+ k) = Some (b, k).
Proof.
  induction b as [|c b IH]; simpl; intros H.
  - reflexivity.
  - apply andb_true_iff in H as [Hc Hb].
    apply negb_true_iff in Hc. rewrite Hc, (IH Hb). reflexivity.
Qed.

(** Percent-decoding leaves a key without reserved characters alone. *)
Lemma url_safe_char_not_percent (c : ascii) :
  url_safe_char c = true -> Ascii.eqb c "%" = false.
Proof.
  destruct c as [[] [] [] [] [] [] [] []]; vm_compute; congruence.
Qed.

Lemma url_decode_safe (s : string) : url_safe s = true -> url_decode s = s.
Proof.
  induction s as [|c r IH]; simpl; intros H; [reflexivity |].
  apply andb_true_iff in H as [Hc Hr].
  rewrite (url_safe_char_not_percent c Hc), (IH Hr). reflexivity.
Qed.

Lemma decode_prefixed (k : string) :
  url_safe k = true -> url_decode (IMAGE_PREFIX +:+ k) = IMAGE_PREFIX +:+ k.
Proof. intros Hk. apply url_decode_safe. exact Hk. Qed.

Lemma copied_from_safe (env : Env) (k : string) :
  url_safe k = true -> copied_from env k = temporary env k.
Proof.
  intros Hk. unfold copied_from, temporary. f_equal.
  now apply decode_prefixed.
Qed.

(** ** The day window *)

Lemma dayStart_eq (w : World) :
  dayStart w = clock w - (clock w - 180 * minute_ms) mod day_ms.
Proof.
  unfold dayStart, toUTC_toISO, startOf_day, UTC_minus_3. cbn [ts zone].
  replace (clock w + -180 * minute_ms) with (clock w - 180 * minute_ms) by lia.
  lia.
Qed.

(** The day starts at a midnight of UTC-3, and the current instant lies
    within the twenty-four hours that follow. *)
Lemma dayStart_window (w : World) :
  (dayStart w - 180 * minute_ms) mod day_ms = 0
  /\ dayStart w <= clock w < dayStart w + day_ms.
Proof.
  rewrite dayStart_eq.
  pose proof (Z.mod_pos_bound (clock w - 180 * minute_ms) day_ms eq_refl) as Hb.
  split; [| lia].
  replace (clock w - (clock w - 180 * minute_ms) mod day_ms - 180 * minute_ms)
    with ((clock w - 180 * minute_ms) - (clock w - 180 * minute_ms) mod day_ms) by lia.
  rewrite Zminus_mod, Z.mod_mod, Z.sub_diag by (unfold day_ms; lia).
  reflexivity.
Qed.

(** ** Prices *)

Lemma pow10_pos (n : nat) : 0 < pow10 n.
Proof. unfold pow10. apply Z.pow_pos_nonneg; lia. Qed.

Lemma dec_eqb_same_price (a b : Decimal) : dec_eqb a b = true <-> same_price a b.
Proof.
  unfold dec_eqb, dec_compare, same_price.
  destruct (Z.compare_spec (coef a * pow10 (scale b)) (coef b * pow10 (scale a)));
    split; intros; try lia; try discriminate; reflexivity.
Qed.

Lemma dec_ltb_lt (a b : Decimal) :
  dec_ltb a b = true <-> coef a * pow10 (scale b) < coef b * pow10 (scale a).
Proof.
  unfold dec_ltb, dec_compare.
  destruct (Z.compare_spec (coef a * pow10 (scale b)) (coef b * pow10 (scale a)));
    split; intros; try lia; try discriminate; reflexivity.
Qed.

(** The duplicate test holds of exactly the offers of today with the
    same product, the same commerce and the same price. *)
Lemma publish_where_matching (w : World) (input : PublishInput.t) (o : Post.t) :
  publish_where (dayStart w) input o = true <-> matching_offer w input o.
Proof.
  unfold publish_where, matching_offer.
  rewrite !andb_true_iff, Z.leb_le, !String.eqb_eq, dec_eqb_same_price.
  tauto.
Qed.

Lemma existentPost_None (w : World) (input : PublishInput.t) :
  existentPost w input = None <->
  (forall o, In o (posts (db w)) -> ~ matching_offer w input o).
Proof.
  unfold existentPost. split.
  - intros H o Hin Hm. apply publish_where_matching in Hm.
    rewrite (find_none _ _ H o Hin) in Hm. discriminate.
  - intros H. destruct (find _ _) as [o|] eqn:E; [| reflexivity].
    apply find_some in E as [Hin Hm].
    apply publish_where_matching in Hm. now apply H in Hm.
Qed.

Lemma existentPost_Some (w : World) (input : PublishInput.t) (o : Post.t) :
  existentPost w input = Some o ->
  In o (posts (db w)) /\ matching_offer w input o.
Proof.
  unfold existentPost. intros H. apply find_some in H as [Hin Hm].
  split; [assumption | now apply publish_where_matching].
Qed.

(** When one offer only matches, it is the answer of the duplicate query. *)
Lemma existentPost_unique (w : World) (input : PublishInput.t) (o : Post.t) :
  In o (posts (db w)) -> matching_offer w input o ->
  (forall q, In q (posts (db w)) -> matching_offer w input q -> q = o) ->
  existentPost w input = Some o.
Proof.
  intros Hin Hm Huniq.
  destruct (existentPost w input) as [q|] eqn:E.
  - apply existentPost_Some in E as [Hq Hmq]. f_equal. now apply Huniq.
  - exfalso. rewrite existentPost_None in E. exact (E o Hin Hm).
Qed.

(** ** Image promotion *)

Section Promotion.

Variable env : Env.
Variable newId : nat -> string.

(** Promotion writes to the object storage only. *)
Lemma validateS3image_frame (k : string) (w : World) :
  db (snd (validateS3image env k w)) = db w
  /\ clock (snd (validateS3image env k w)) = clock w.
Proof.
  unfold validateS3image, bind, catch, send_HeadObject, send_CopyObject,
    send_DeleteObject, throw, ret.
  repeat (case_match; simplify_eq/=); auto.
Qed.

(** The outcome of the existence check. *)
Lemma head_fails (k : string) (w : World) :
  objects (s3 w) !! temporary env k = None \/ head_failure (s3 w) <> None ->
  validateS3image env k w =
    (inl (TRPCError BAD_REQUEST (Some "IMAGE_KEY_NOT_FOUND")),
     with_s3 w (record_command
                  (HeadObjectCommand (S3_BUCKET_NAME env) (IMAGE_PREFIX +:+ k))
                  (s3 w))).
Proof.
  unfold temporary. intros H.
  unfold validateS3image, bind, catch, send_HeadObject, throw. simpl.
  destruct (head_failure (s3 w)) as [name|]; [reflexivity |].
  destruct H as [H | H]; [| congruence].
  rewrite H. reflexivity.
Qed.

(** What [publish] does, by the answer of the duplicate query. *)
Lemma publish_mutation_cases (ctx : Ctx) (input : PublishInput.t) (w : World) :
  publish_mutation env newId ctx input w =
    match existentPost w input with
    | Some o =>
        if String.eqb (Post.authorId o) (session_user_id ctx)
        then (inr ReturnsUndefined, w)
        else (colaboration <- db_colaboration_create newId (Post.id o)
                                (session_user_id ctx) ;;
              ret (ReturnsColaboration colaboration)) w
    | None =>
        (post <- create_mutation env newId ctx input ;; ret (ReturnsPost post)) w
    end.
Proof.
  unfold publish_mutation, create_mutation, existentPost, dayStart, bind,
    DateTime_now_setZone, db_post_findFirst, ret. simpl.
  destruct (find _ _) as [o|].
  - destruct (String.eqb _ _); reflexivity.
  - destruct (validateS3image _ _ _) as [[e|imageUrl] w1]; reflexivity.
Qed.

(** [create] after the image is settled. *)
Lemma create_mutation_cases (ctx : Ctx) (input : PublishInput.t) (w : World) :
  create_mutation env newId ctx input w =
    match validateS3image env (PublishInput.imageKey input) w with
    | (inr imageUrl, w1) =>
        db_post_create newId (PublishInput.productId input)
          (PublishInput.commerceId input) imageUrl
          (PublishInput.price input) (session_user_id ctx) w1
    | (inl e, w1) => (inl e, w1)
    end.
Proof. reflexivity. Qed.

(** C5.  When the existence check on the temporary object of a key
    reports that the object is absent, or fails for any other reason,
    promotion fails with BAD_REQUEST / IMAGE_KEY_NOT_FOUND after having
    sent the head request only (no copy, no delete, the bucket is as it
    was), and neither [publish] nor [create], called with that key, adds
    an Offer. *)
Theorem promote_image_not_found (k : string) (w : World) :
  objects (s3 w) !! temporary env k = None \/ head_failure (s3 w) <> None ->
  fst (validateS3image env k w)
    = inl (TRPCError BAD_REQUEST (Some "IMAGE_KEY_NOT_FOUND"))
  /\ sent (s3 (snd (validateS3image env k w)))
     = (sent (s3 w)
        ++ [HeadObjectCommand (S3_BUCKET_NAME env) (IMAGE_PREFIX +:+ k)])%list
  /\ objects (s3 (snd (validateS3image env k w))) = objects (s3 w)
  /\ (forall ctx input, PublishInput.imageKey input = k ->
        posts (db (snd (publish env newId ctx input w))) = posts (db w)
        /\ (forall p, fst (publish env newId ctx input w) <> inr (ReturnsPost p))
        /\ posts (db (snd (create env newId ctx input w))) = posts (db w)
        /\ (forall p, fst (create env newId ctx input w) <> inr p)).
Proof.
  intros H. rewrite (head_fails k w H). simpl.
  repeat split; try reflexivity; subst k.
  - unfold publish, procedure. destruct (publish_schema input); [| reflexivity].
    rewrite publish_mutation_cases.
    destruct (existentPost w input) as [o|].
    + destruct (String.eqb _ _); [reflexivity |].
      unfold bind, db_colaboration_create.
      destruct (colaboration_rejection _ _ _); reflexivity.
    + unfold bind. rewrite create_mutation_cases, (head_fails _ w H). reflexivity.
  - intros p. unfold publish, procedure.
    destruct (publish_schema input); [| discriminate].
    rewrite publish_mutation_cases.
    destruct (existentPost w input) as [o|].
    + destruct (String.eqb _ _); [discriminate |].
      unfold bind, db_colaboration_create.
      destruct (colaboration_rejection _ _ _); discriminate.
    + unfold bind. rewrite create_mutation_cases, (head_fails _ w H). discriminate.
  - unfold create, procedure. destruct (publish_schema input); [| reflexivity].
    rewrite create_mutation_cases, (head_fails _ w H). reflexivity.
  - intros p. unfold create, procedure.
    destruct (publish_schema input); [| discriminate].
    rewrite create_mutation_cases, (head_fails _ w H). discriminate.
Qed.

(** The first two steps of a promotion that passes the existence check. *)
Lemma head_passes (k : string) (w : World) (o : S3Object) :
  objects (s3 w) !! temporary env k = Some o ->
  head_failure (s3 w) = None ->
  send_HeadObject (S3_BUCKET_NAME env) (IMAGE_PREFIX +:+ k) w =
    (inr (),
     with_s3 w (record_command
                  (HeadObjectCommand (S3_BUCKET_NAME env) (IMAGE_PREFIX +:+ k))
                  (s3 w))).
Proof.
  unfold temporary, send_HeadObject. simpl. intros -> ->. reflexivity.
Qed.

(** C6.  When the existence check succeeds and the copy to the
    permanent key is answered without a [CopyObjectResult], promotion
    fails with INTERNAL_SERVER_ERROR / IMAGE_VALIDATION_ERROR; the head
    and the copy are the only requests sent, no delete is, and the
    temporary object is still in place. *)
Theorem promote_copy_unconfirmed (k : string) (w : World) (written : bool) :
  head_failure (s3 w) = None ->
  is_Some (objects (s3 w) !! temporary env k) ->
  copy_behaviour (s3 w) = CopyUnconfirmed written ->
  fst (validateS3image env k w)
    = inl (TRPCError INTERNAL_SERVER_ERROR (Some "IMAGE_VALIDATION_ERROR"))
  /\ sent (s3 (snd (validateS3image env k w)))
     = (sent (s3 w)
        ++ [HeadObjectCommand (S3_BUCKET_NAME env) (IMAGE_PREFIX +:+ k);
            CopyObjectCommand
              ((S3_BUCKET_NAME env +:+ "/") +:+ (IMAGE_PREFIX +:+ k))
              (S3_BUCKET_NAME env) k])%list
  /\ objects (s3 (snd (validateS3image env k w))) !! temporary env k
     = objects (s3 w) !! temporary env k.
Proof.
  intros Hhead [o Ho] Hcopy.
  unfold validateS3image, bind, catch.
  rewrite (head_passes k w o Ho Hhead).
  unfold send_CopyObject, throw. simpl. rewrite Hcopy. simpl.
  repeat split.
  - destruct (copy_source _ _) as [src|]; [destruct written |]; simpl;
      now rewrite <- app_assoc.
  - destruct (copy_source _ _) as [src|]; [destruct written |]; simpl;
      try reflexivity.
    apply lookup_insert_ne. apply not_eq_sym, temporary_ne_permanent.
Qed.

(** C7, as the code has it.  When the temporary object of a key
    exists, the existence check passes and the copy is confirmed (the
    backend finds the object the copy source names and copies it), the
    permanent key holds the copied object afterwards, which is the
    temporary object when the key has no character that percent-decoding
    changes; then the delete request decides: when it succeeds,
    promotion returns the base URL, a slash and the key, and the
    temporary key holds nothing; when it is rejected, promotion fails
    with that rejection and the temporary object is still in place. *)
Theorem promote_moves_image (k : string) (w : World) (o copied : S3Object) :
  no_slash (S3_BUCKET_NAME env) = true ->
  objects (s3 w) !! temporary env k = Some o ->
  head_failure (s3 w) = None ->
  copy_behaviour (s3 w) = CopyCompletes ->
  objects (s3 w) !! copied_from env k = Some copied ->
  objects (s3 (snd (validateS3image env k w))) !! permanent env k = Some copied
  /\ (url_safe k = true -> copied = o)
  /\ match delete_failure (s3 w) with
     | None =>
         fst (validateS3image env k w) = inr (S3_BUCKET_URL env +:+ "/" +:+ k)
         /\ objects (s3 (snd (validateS3image env k w))) !! temporary env k = None
     | Some name =>
         fst (validateS3image env k w) = inl (S3ServiceException name)
         /\ objects (s3 (snd (validateS3image env k w))) !! temporary env k = Some o
     end.
Proof.
  intros Hslash Ho Hhead Hcopy Hcopied.
  assert (Hsame : url_safe k = true -> copied = o).
  { intros Hk. rewrite (copied_from_safe env k Hk) in Hcopied. congruence. }
  unfold validateS3image, bind, catch.
  rewrite (head_passes k w o Ho Hhead).
  unfold send_CopyObject, copy_source. simpl. rewrite Hcopy.
  rewrite (split_at_slash_append _ _ Hslash).
  unfold copied_from in Hcopied. rewrite Hcopied. simpl.
  unfold send_DeleteObject, ret. simpl.
  destruct (delete_failure (s3 w)) as [name|]; simpl.
  - unfold permanent, temporary in *. rewrite lookup_insert_eq.
    split; [reflexivity |]. split; [exact Hsame |]. split; [reflexivity |].
    rewrite lookup_insert_ne; [assumption |].
    apply not_eq_sym, (temporary_ne_permanent env k).
  - unfold permanent, temporary in *. rewrite lookup_delete_eq.
    rewrite lookup_delete_ne by apply (temporary_ne_permanent env k).
    rewrite lookup_insert_eq. repeat split. exact Hsame.
Qed.

End Promotion.

(** ** Publication *)

Lemma existsb_eqb_In (x : string) (l : list string) :
  In x l -> existsb (String.eqb x) l = true.
Proof.
  intros H. apply existsb_exists. exists x. split; [exact H |].
  apply String.eqb_refl.
Qed.

Lemma existsb_key_In {A : Type} (key : A -> string) (x : string) (l : list A) :
  In x (map key l) -> existsb (fun a => String.eqb (key a) x) l = true.
Proof.
  intros H. apply in_map_iff in H as (a & Ha & Hin).
  apply existsb_exists. exists a. split; [exact Hin |]. now apply String.eqb_eq.
Qed.

(** The store accepts an Offer whose rows exist and whose price fits. *)
Lemma offer_accepted (w : World) (ctx : Ctx) (input : PublishInput.t) :
  references_exist w ctx input -> price_fits w input ->
  offer_rejection w ctx input = None.
Proof.
  intros (Hproduct & Hcommerce & Huser) Hfits.
  unfold offer_rejection, post_rejection. unfold price_fits in Hfits.
  rewrite Hfits. simpl.
  rewrite (existsb_key_In Product.id _ _ Hproduct),
    (existsb_eqb_In _ _ Hcommerce), (existsb_eqb_In _ _ Huser).
  reflexivity.
Qed.

(** A decimal with no more decimals than the column is kept as it is. *)
Lemma store_decimal_exact (s : nat) (d : Decimal) :
  (scale d <= s)%nat -> store_decimal s d = d.
Proof.
  intros H. unfold store_decimal.
  apply Nat.leb_le in H. now rewrite H.
Qed.

Section Publication.

Variable env : Env.
Variable newId : nat -> string.

(** The create path: the image is promoted first, and the Offer is
    written only when that succeeded and the store accepts it. *)
Lemma create_mutation_spec (ctx : Ctx) (input : PublishInput.t) (w : World) :
  match validateS3image env (PublishInput.imageKey input) w with
  | (inr imageUrl, promoted) =>
      match offer_rejection w ctx input with
      | None =>
          create_mutation env newId ctx input w =
            (inr (new_offer newId ctx input imageUrl w),
             with_db promoted
               (set_posts (db w)
                  (posts (db w) ++ [new_offer newId ctx input imageUrl w])
                  (S (issued (db w)))))
      | Some code =>
          create_mutation env newId ctx input w
            = (inl (PrismaClientKnownRequestError code), promoted)
          /\ db promoted = db w
      end
  | (inl e, failed) =>
      create_mutation env newId ctx input w = (inl e, failed)
      /\ db failed = db w
  end.
Proof.
  rewrite create_mutation_cases.
  destruct (validateS3image_frame env (PublishInput.imageKey input) w) as [Hdb Hclock].
  destruct (validateS3image env _ w) as [[e|imageUrl] w1]; simpl in *.
  - split; [reflexivity | assumption].
  - unfold db_post_create, offer_rejection, new_offer. rewrite Hdb, Hclock.
    destruct (post_rejection _ _ _ _ _); [split |]; reflexivity.
Qed.

(** C1, as the code has it.  For a valid input whose product and
    commerce are rows of the store, published by a user of the store,
    whose price is in the range of the price column, and such that the
    store holds no Offer of today with the same product, the same
    commerce and the same price, [publish] promotes the image and then
    writes one Offer: when the promotion returns a URL, [publish] returns
    the new Offer, which carries that URL, the product and the commerce
    of the input, the user of the session as author, and as price the
    decimal of the input as the column keeps it (the decimal itself when
    it has no more decimals than the column, else rounded), and which is
    the one row added to the Offers; when the promotion fails, [publish]
    fails with the same exception and the store is as it was. *)
Theorem publish_creates_offer (ctx : Ctx) (input : PublishInput.t) (w : World) :
  publish_schema input = [] ->
  references_exist w ctx input ->
  price_fits w input ->
  (forall o, In o (posts (db w)) -> ~ matching_offer w input o) ->
  match validateS3image env (PublishInput.imageKey input) w with
  | (inr imageUrl, promoted) =>
      let post := new_offer newId ctx input imageUrl w in
      fst (publish env newId ctx input w) = inr (ReturnsPost post)
      /\ Post.image post = imageUrl
      /\ Post.productId post = PublishInput.productId input
      /\ Post.commerceId post = PublishInput.commerceId input
      /\ Post.price post
         = store_decimal (price_scale (db w)) (PublishInput.price input)
      /\ ((scale (PublishInput.price input) <= price_scale (db w))%nat ->
            Post.price post = PublishInput.price input)
      /\ Post.authorId post = session_user_id ctx
      /\ posts (db (snd (publish env newId ctx input w)))
         = (posts (db w) ++ [post])%list
      /\ colaborations (db (snd (publish env newId ctx input w)))
         = colaborations (db w)
      /\ s3 (snd (publish env newId ctx input w)) = s3 promoted
  | (inl e, failed) =>
      fst (publish env newId ctx input w) = inl e
      /\ db (snd (publish env newId ctx input w)) = db w
      /\ s3 (snd (publish env newId ctx input w)) = s3 failed
  end.
Proof.
  intros Hvalid Hrows Hfits Hnone.
  apply existentPost_None in Hnone.
  unfold publish, procedure. rewrite Hvalid, publish_mutation_cases, Hnone.
  unfold bind.
  pose proof (create_mutation_spec ctx input w) as Hcreate.
  rewrite (offer_accepted w ctx input Hrows Hfits) in Hcreate.
  destruct (validateS3image env _ w) as [[e|imageUrl] w1].
  - destruct Hcreate as [-> Hdb]. simpl. auto.
  - rewrite Hcreate. simpl. repeat split.
    intros Hscale. now apply store_decimal_exact.
Qed.

(** C2, as the code has it.  For a valid input by a user of the store
    for which the duplicate query finds an Offer (the first Offer of
    today, in the order of the store, with the same product, commerce and
    price) whose author is not the user of the session, [publish] returns
    a new Colaboration that links the user to the id of that Offer; it is
    the one row added to the Colaborations, the Offers are as they were,
    and nothing is sent to the object storage. *)
Theorem publish_collaborates (ctx : Ctx) (input : PublishInput.t) (w : World)
    (o : Post.t) :
  publish_schema input = [] ->
  In (session_user_id ctx) (users (db w)) ->
  existentPost w input = Some o ->
  Post.authorId o <> session_user_id ctx ->
  let colaboration :=
    {| Colaboration.id := newId (issued (db w));
       Colaboration.postId := Post.id o;
       Colaboration.userId := session_user_id ctx |} in
  In o (posts (db w)) /\ matching_offer w input o
  /\ fst (publish env newId ctx input w) = inr (ReturnsColaboration colaboration)
  /\ colaborations (db (snd (publish env newId ctx input w)))
     = (colaborations (db w) ++ [colaboration])%list
  /\ posts (db (snd (publish env newId ctx input w))) = posts (db w)
  /\ s3 (snd (publish env newId ctx input w)) = s3 w.
Proof.
  intros Hvalid Huser Hfound Hauthor colaboration.
  destruct (existentPost_Some _ _ _ Hfound) as [Hin Hmatch].
  unfold publish, procedure. rewrite Hvalid, publish_mutation_cases, Hfound.
  apply String.eqb_neq in Hauthor. rewrite Hauthor.
  unfold bind, db_colaboration_create, colaboration_rejection.
  rewrite (existsb_key_In Post.id (Post.id o) (posts (db w)))
    by (now apply in_map).
  rewrite (existsb_eqb_In _ _ Huser). simpl.
  split; [assumption |]. split; [assumption |]. repeat split.
Qed.

(** C3, as the code has it.  For a valid input for which the duplicate
    query finds an Offer (the first Offer of today, in the order of the
    store, with the same product, commerce and price) whose author is the
    user of the session, [publish] returns
    [undefined] and leaves the world as it was: no Offer, no
    Colaboration, and no request to the object storage. *)
Theorem publish_same_author_noop (ctx : Ctx) (input : PublishInput.t) (w : World)
    (o : Post.t) :
  publish_schema input = [] ->
  existentPost w input = Some o ->
  Post.authorId o = session_user_id ctx ->
  In o (posts (db w)) /\ matching_offer w input o
  /\ publish env newId ctx input w = (inr ReturnsUndefined, w).
Proof.
  intros Hvalid Hfound Hauthor.
  destruct (existentPost_Some _ _ _ Hfound) as [Hin Hmatch].
  unfold publish, procedure. rewrite Hvalid, publish_mutation_cases, Hfound.
  apply String.eqb_eq in Hauthor. rewrite Hauthor.
  split; [assumption |]. split; [assumption | reflexivity].
Qed.

(** C4.  The duplicate test holds of an Offer exactly when it is of
    today, of the same product and commerce, and its price is the same
    number as the price of the input.  So when every Offer of today for
    the product and the commerce has a price that is another number,
    however close, the query finds nothing and [publish] takes the
    create path: it returns neither [undefined] nor a Colaboration, and
    adds no Colaboration. *)
Theorem publish_price_exact (ctx : Ctx) (input : PublishInput.t) (w : World) :
  publish_schema input = [] ->
  (forall o, In o (posts (db w)) ->
     dayStart w <= Post.publishDate o ->
     Post.productId o = PublishInput.productId input ->
     Post.commerceId o = PublishInput.commerceId input ->
     coef (Post.price o) * pow10 (scale (PublishInput.price input))
       <> coef (PublishInput.price input) * pow10 (scale (Post.price o))) ->
  (forall o, publish_where (dayStart w) input o = true <->
     dayStart w <= Post.publishDate o
     /\ Post.productId o = PublishInput.productId input
     /\ Post.commerceId o = PublishInput.commerceId input
     /\ coef (Post.price o) * pow10 (scale (PublishInput.price input))
        = coef (PublishInput.price input) * pow10 (scale (Post.price o)))
  /\ existentPost w input = None
  /\ publish env newId ctx input w
     = (post <- create_mutation env newId ctx input ;; ret (ReturnsPost post)) w
  /\ fst (publish env newId ctx input w) <> inr ReturnsUndefined
  /\ (forall c, fst (publish env newId ctx input w) <> inr (ReturnsColaboration c))
  /\ colaborations (db (snd (publish env newId ctx input w)))
     = colaborations (db w).
Proof.
  intros Hvalid Hdiffer.
  assert (Hnone : existentPost w input = None).
  { apply existentPost_None. intros o Hin (Hday & Hp & Hc & Hprice).
    exact (Hdiffer o Hin Hday Hp Hc Hprice). }
  split; [exact (publish_where_matching w input) |].
  split; [exact Hnone |].
  unfold publish, procedure. rewrite Hvalid, publish_mutation_cases, Hnone.
  split; [reflexivity |].
  unfold bind.
  pose proof (create_mutation_spec ctx input w) as Hcreate.
  destruct (validateS3image env _ w) as [[e|imageUrl] w1].
  - destruct Hcreate as [-> Hdb]. simpl. rewrite Hdb.
    repeat split; try discriminate; intros c; discriminate.
  - destruct (offer_rejection w ctx input) as [code|].
    + destruct Hcreate as [-> Hdb]. simpl. rewrite Hdb.
      repeat split; try discriminate; intros c; discriminate.
    + rewrite Hcreate. simpl.
      repeat split; try discriminate; intros c; discriminate.
Qed.

End Publication.

(** ** Deletion *)

Section Deletion.

(** [id] is the key of the table: two rows with one id are one row. *)
Lemma key_injective (l : list Post.t) (p q : Post.t) :
  List.NoDup (map Post.id l) -> In p l -> In q l -> Post.id p = Post.id q -> p = q.
Proof.
  induction l as [|a l IH]; simpl; [tauto |].
  intros Hnd [Hp | Hp] [Hq | Hq] Heq; subst.
  - reflexivity.
  - apply NoDup_cons_iff in Hnd as [Hfresh _]. exfalso. apply Hfresh.
    rewrite Heq. now apply in_map.
  - apply NoDup_cons_iff in Hnd as [Hfresh _]. exfalso. apply Hfresh.
    rewrite <- Heq. now apply in_map.
  - apply NoDup_cons_iff in Hnd as [_ Hnd]. now apply IH.
Qed.

Lemma findUnique_present (w : World) (i : string) (p : Post.t) :
  List.NoDup (map Post.id (posts (db w))) ->
  In p (posts (db w)) -> Post.id p = i ->
  db_post_findUnique i w = (inr (Some p), w).
Proof.
  intros Hnd Hin Hid. unfold db_post_findUnique.
  destruct (find _ _) as [q|] eqn:E.
  - apply find_some in E as [Hq Hqid]. apply String.eqb_eq in Hqid.
    rewrite (key_injective _ q p Hnd Hq Hin) by congruence. reflexivity.
  - apply (find_none _ _ E) in Hin. apply String.eqb_neq in Hin. contradiction.
Qed.

Lemma findUnique_absent (w : World) (i : string) :
  (forall p, In p (posts (db w)) -> Post.id p <> i) ->
  db_post_findUnique i w = (inr None, w).
Proof.
  intros Habsent. unfold db_post_findUnique.
  destruct (find _ _) as [q|] eqn:E; [| reflexivity].
  apply find_some in E as [Hq Hqid]. apply String.eqb_eq in Hqid.
  now apply Habsent in Hq.
Qed.

(** C8.  For a request to delete the Offer with id [i] by the user of
    the session, on a table keyed by id: when no Offer has that id the
    operation fails with NOT_FOUND; when the Offer with that id has
    another author it fails with FORBIDDEN and the world is as it was,
    the Offer still in the table; otherwise it succeeds, returns the
    Offer, and the table holds the other Offers and no longer that
    one. *)
Theorem deleteOwnPost_gated (ctx : Ctx) (i : string) (w : World) :
  z_uuid i = true ->
  List.NoDup (map Post.id (posts (db w))) ->
  ((forall p, In p (posts (db w)) -> Post.id p <> i) ->
     deleteOwnPost ctx i w = (inl (TRPCError NOT_FOUND None), w))
  /\ (forall p, In p (posts (db w)) -> Post.id p = i ->
        (Post.authorId p <> session_user_id ctx ->
           deleteOwnPost ctx i w
             = (inl (TRPCError FORBIDDEN
                       (Some "No eres el autor de la publicación")), w))
        /\ (Post.authorId p = session_user_id ctx ->
              fst (deleteOwnPost ctx i w) = inr p
              /\ ~ In p (posts (db (snd (deleteOwnPost ctx i w))))
              /\ (forall q, In q (posts (db (snd (deleteOwnPost ctx i w))))
                            <-> In q (posts (db w)) /\ q <> p))).
Proof.
  intros Hvalid Hnd.
  unfold deleteOwnPost, procedure, deleteOwnPost_schema. rewrite Hvalid.
  unfold deleteOwnPost_mutation, bind. split.
  - intros Habsent. now rewrite (findUnique_absent w i Habsent).
  - intros p Hin Hid. rewrite (findUnique_present w i p Hnd Hin Hid). split.
    + intros Hauthor. apply String.eqb_neq in Hauthor. now rewrite Hauthor.
    + intros Hauthor. apply String.eqb_eq in Hauthor. rewrite Hauthor. simpl.
      pose proof (findUnique_present w i p Hnd Hin Hid) as Hfind.
      unfold db_post_findUnique in Hfind. injection Hfind as Hfind.
      unfold db_post_delete. rewrite Hfind. simpl.
      assert (Hrows : forall q, In q (List.filter
                (fun r => negb (String.eqb (Post.id r) i)) (posts (db w)))
                <-> In q (posts (db w)) /\ q <> p).
      { intros q. rewrite filter_In, negb_true_iff, String.eqb_neq.
        split; intros [Hq Hne]; split; try assumption.
        - intros ->. contradiction.
        - intros Hqid. apply Hne.
          apply (key_injective _ q p Hnd Hq Hin). congruence. }
      split; [reflexivity |]. split; [| exact Hrows].
      intros Hp. apply Hrows in Hp. now destruct Hp.
Qed.

End Deletion.

(** ** The daily feed *)

Lemma insert_by_In {A : Type} (leb : A -> A -> bool) (x y : A) (l : list A) :
  In y (insert_by leb x l) <-> y = x \/ In y l.
Proof.
  induction l as [|a l IH]; simpl.
  - intuition.
  - destruct (leb x a); simpl; [intuition |].
    rewrite IH. intuition.
Qed.

Lemma order_by_In {A : Type} (leb : A -> A -> bool) (y : A) (l : list A) :
  In y (order_by leb l) <-> In y l.
Proof.
  induction l as [|a l IH]; simpl; [reflexivity |].
  rewrite insert_by_In, IH. intuition.
Qed.

Section Ordering.

Context {A : Type}.
Variable leb : A -> A -> bool.

Hypothesis leb_total : forall a b, leb a b = false -> leb b a = true.
Hypothesis leb_trans :
  forall a b c, leb a b = true -> leb b c = true -> leb a c = true.

Lemma insert_by_sorted (x : A) (l : list A) :
  StronglySorted (fun a b => leb a b = true) l ->
  StronglySorted (fun a b => leb a b = true) (insert_by leb x l).
Proof.
  induction 1 as [|a l Hsorted IH Hall]; simpl.
  - repeat constructor.
  - destruct (leb x a) eqn:E.
    + constructor; [now constructor |].
      constructor; [exact E |].
      apply List.Forall_forall. intros b Hb.
      apply (leb_trans _ _ _ E).
      exact (proj1 (List.Forall_forall _ _) Hall b Hb).
    + constructor; [exact IH |].
      apply List.Forall_forall. intros b Hb.
      apply insert_by_In in Hb as [-> | Hb].
      * now apply leb_total.
      * now apply (proj1 (List.Forall_forall _ _) Hall).
Qed.

Lemma order_by_sorted (l : list A) :
  StronglySorted (fun a b => leb a b = true) (order_by leb l).
Proof.
  induction l as [|a l IH]; simpl; [constructor | now apply insert_by_sorted].
Qed.

End Ordering.

Lemma distinct_from_In {A : Type} (key : A -> string) (seen : gset string)
    (l : list A) (x : A) :
  In x (distinct_from key seen l) -> In x l /\ key x ∉ seen.
Proof.
  revert seen. induction l as [|a l IH]; simpl; intros seen; [tauto |].
  case_bool_decide as Hseen.
  - intros Hx. apply IH in Hx. tauto.
  - intros [-> | Hx]; [tauto |].
    apply IH in Hx as [Hx Hfresh]. split; [tauto |].
    intros Hin. apply Hfresh, elem_of_union. now right.
Qed.

Lemma distinct_from_NoDup {A : Type} (key : A -> string) (seen : gset string)
    (l : list A) :
  List.NoDup (map key (distinct_from key seen l)).
Proof.
  revert seen. induction l as [|a l IH]; simpl; intros seen; [constructor |].
  case_bool_decide as Hseen; [apply IH |].
  simpl. constructor; [| apply IH].
  intros Hin. apply in_map_iff in Hin as (x & Hkey & Hx).
  apply distinct_from_In in Hx as [_ Hfresh].
  apply Hfresh, elem_of_union. left. now apply elem_of_singleton.
Qed.

Section Distinct.

Context {A : Type}.
Variable key : A -> string.
Variable le : A -> A -> Prop.

Lemma distinct_from_sorted (seen : gset string) (l : list A) :
  StronglySorted le l -> StronglySorted le (distinct_from key seen l).
Proof.
  intros Hsorted. revert seen.
  induction Hsorted as [|a l Hsorted IH Hall]; simpl; intros seen; [constructor |].
  case_bool_decide as Hseen; [apply IH |].
  constructor; [apply IH |].
  apply List.Forall_forall. intros x Hx. apply distinct_from_In in Hx as [Hx _].
  now apply (proj1 (List.Forall_forall _ _) Hall).
Qed.

Hypothesis le_refl : forall a, le a a.

(** Every row whose key is new has a representative in the result:
    the first row with that key, which the order puts before it. *)
Lemma distinct_from_first (seen : gset string) (l : list A) :
  StronglySorted le l ->
  forall p, In p l -> key p ∉ seen ->
    exists x, In x (distinct_from key seen l) /\ key x = key p /\ le x p.
Proof.
  intros Hsorted. revert seen.
  induction Hsorted as [|a l Hsorted IH Hall]; simpl; intros seen p Hp Hfresh;
    [contradiction |].
  case_bool_decide as Hseen.
  - destruct Hp as [-> | Hp]; [contradiction |].
    now apply IH.
  - destruct Hp as [-> | Hp].
    + exists p. simpl. auto.
    + destruct (decide (key p = key a)) as [Heq | Hne].
      * exists a. simpl. repeat split; auto.
        now apply (proj1 (List.Forall_forall _ _) Hall).
      * destruct (IH ({[ key a ]} ∪ seen) p Hp) as (x & Hx & Hkey & Hle).
        { intros Hin. apply elem_of_union in Hin as [Hin | Hin];
            [apply elem_of_singleton in Hin |]; contradiction. }
        exists x. simpl. auto.
Qed.

End Distinct.

Lemma cross_lt_le (ca cb cc pa pb pc : Z) :
  0 < pa -> 0 < pb -> 0 < pc ->
  ca * pb < cb * pa -> cb * pc <= cc * pb -> ca * pc < cc * pa.
Proof.
  intros Ha Hb Hc H1 H2.
  apply (Z.mul_lt_mono_pos_r pb); [assumption |].
  apply Z.lt_le_trans with (cb * pa * pc).
  - replace (ca * pc * pb) with (ca * pb * pc) by ring.
    now apply Z.mul_lt_mono_pos_r.
  - replace (cb * pa * pc) with (cb * pc * pa) by ring.
    replace (cc * pa * pb) with (cc * pb * pa) by ring.
    apply Z.mul_le_mono_nonneg_r; lia.
Qed.

Lemma cross_le_lt (ca cb cc pa pb pc : Z) :
  0 < pa -> 0 < pb -> 0 < pc ->
  ca * pb <= cb * pa -> cb * pc < cc * pb -> ca * pc < cc * pa.
Proof.
  intros Ha Hb Hc H1 H2.
  apply (Z.mul_lt_mono_pos_r pb); [assumption |].
  apply Z.le_lt_trans with (cb * pa * pc).
  - replace (ca * pc * pb) with (ca * pb * pc) by ring.
    apply Z.mul_le_mono_nonneg_r; lia.
  - replace (cb * pa * pc) with (cb * pc * pa) by ring.
    replace (cc * pa * pb) with (cc * pb * pa) by ring.
    now apply Z.mul_lt_mono_pos_r.
Qed.

Lemma cross_eq (ca cb cc pa pb pc : Z) :
  0 < pb ->
  ca * pb = cb * pa -> cb * pc = cc * pb -> ca * pc = cc * pa.
Proof.
  intros Hb H1 H2.
  apply (Z.mul_cancel_r _ _ pb); [lia |].
  replace (ca * pc * pb) with (ca * pb * pc) by ring.
  rewrite H1.
  replace (cb * pa * pc) with (cb * pc * pa) by ring.
  rewrite H2. ring.
Qed.

Lemma price_order_spec (a b : Post.t) :
  price_asc_publishDate_desc a b = true <-> at_least_as_good a b.
Proof.
  unfold price_asc_publishDate_desc, at_least_as_good.
  rewrite orb_true_iff, andb_true_iff, dec_ltb_lt, dec_eqb_same_price, Z.leb_le.
  reflexivity.
Qed.

Lemma price_order_refl (a : Post.t) : price_asc_publishDate_desc a a = true.
Proof. apply price_order_spec. right. split; [reflexivity | lia]. Qed.

Lemma price_order_total (a b : Post.t) :
  price_asc_publishDate_desc a b = false -> price_asc_publishDate_desc b a = true.
Proof.
  intros H. apply price_order_spec.
  assert (Hn : ~ at_least_as_good a b)
    by (rewrite <- price_order_spec, H; discriminate).
  unfold at_least_as_good, same_price in *. lia.
Qed.

Lemma price_order_trans (a b c : Post.t) :
  price_asc_publishDate_desc a b = true ->
  price_asc_publishDate_desc b c = true ->
  price_asc_publishDate_desc a c = true.
Proof.
  rewrite !price_order_spec. unfold at_least_as_good, same_price.
  pose proof (pow10_pos (scale (Post.price a))) as Ha.
  pose proof (pow10_pos (scale (Post.price b))) as Hb.
  pose proof (pow10_pos (scale (Post.price c))) as Hc.
  intros [Hab | [Hab Tab]] [Hbc | [Hbc Tbc]].
  - left. apply (cross_lt_le _ (coef (Post.price b)) _ _ _ _ Ha Hb Hc Hab). lia.
  - left. apply (cross_lt_le _ (coef (Post.price b)) _ _ _ _ Ha Hb Hc Hab). lia.
  - left. apply (cross_le_lt _ (coef (Post.price b)) _ _
                   (pow10 (scale (Post.price b))) _ Ha Hb Hc); [lia | exact Hbc].
  - right. split; [| lia].
    exact (cross_eq _ (coef (Post.price b)) _ _ _ _ Hb Hab Hbc).
Qed.

Lemma StronglySorted_weaken {A : Type} (R S : A -> A -> Prop) (l : list A) :
  (forall a b, R a b -> S a b) -> StronglySorted R l -> StronglySorted S l.
Proof.
  intros HRS. induction 1 as [|a l Hsorted IH Hall]; constructor; [exact IH |].
  apply List.Forall_forall. intros b Hb. apply HRS.
  exact (proj1 (List.Forall_forall _ _) Hall b Hb).
Qed.

(** The rows of the feed before the count is attached. *)
Lemma getDailyBestOffers_rows (ctx : Ctx) (w : World) :
  getDailyBestOffers ctx w =
    (inr (map (fun p => {| offer := p;
                           _count_colaborations := count_colaborations (db w) p |})
            (distinct_by Post.productId
               (order_by price_asc_publishDate_desc
                  (List.filter (fun p => dayStart w <=? Post.publishDate p)
                     (posts (db w)))))),
     w).
Proof. reflexivity. Qed.

(** C9.  The daily feed returns Offers of the store published since the
    start of the current day at UTC-3, each with the number of its
    Colaborations, in order of ascending price and, at equal price, of
    descending publish date, with one row for every product that has an
    Offer today and no two rows for one product; the row of a product is
    at least as good as every Offer of today for that product: cheaper,
    or of the same price and not older.  For one product offered today
    at 50, at 30 and later at 30 again, the feed is the later Offer at 30
    alone. *)
Theorem getDailyBestOffers_best_per_product :
  (forall ctx w, exists rows,
     getDailyBestOffers ctx w = (inr rows, w)
     /\ (forall x, In x rows ->
           In (offer x) (posts (db w))
           /\ dayStart w <= Post.publishDate (offer x)
           /\ _count_colaborations x
              = length (List.filter
                          (fun c => String.eqb (Colaboration.postId c)
                                      (Post.id (offer x)))
                          (colaborations (db w))))
     /\ StronglySorted at_least_as_good (map offer rows)
     /\ List.NoDup (map (fun x => Post.productId (offer x)) rows)
     /\ (forall p, In p (posts (db w)) -> dayStart w <= Post.publishDate p ->
           exists x, In x rows
                     /\ Post.productId (offer x) = Post.productId p
                     /\ at_least_as_good (offer x) p))
  /\ fst (getDailyBestOffers Sample.alice Sample.feed)
     = inr [ {| offer := Sample.thirty_late; _count_colaborations := 0%nat |} ].
Proof.
  split; [| vm_compute; reflexivity].
  intros ctx w. rewrite getDailyBestOffers_rows.
  set (today := List.filter (fun p => dayStart w <=? Post.publishDate p)
                  (posts (db w))).
  set (sorted := order_by price_asc_publishDate_desc today).
  set (rows := distinct_by Post.productId sorted).
  set (annotate := fun p => {| offer := p;
                    _count_colaborations := count_colaborations (db w) p |}).
  assert (Hoffers : map offer (map annotate rows) = rows).
  { rewrite map_map. simpl. apply map_id. }
  assert (Hsorted : StronglySorted
            (fun a b => price_asc_publishDate_desc a b = true) sorted).
  { exact (order_by_sorted _ price_order_total price_order_trans today). }
  pose proof price_order_refl as Hrefl.
  assert (Htoday : forall p, In p sorted <->
            In p (posts (db w)) /\ dayStart w <= Post.publishDate p).
  { intros p. unfold sorted, today.
    rewrite order_by_In, filter_In, Z.leb_le. reflexivity. }
  exists (map annotate rows). split; [reflexivity |].
  split; [| split; [| split]].
  - intros x Hx. apply in_map_iff in Hx as (p & <- & Hp). simpl.
    apply distinct_from_In in Hp as [Hp _]. apply Htoday in Hp as [Hp Hday].
    split; [exact Hp |]. split; [exact Hday | reflexivity].
  - rewrite Hoffers.
    apply (StronglySorted_weaken
             (fun a b => price_asc_publishDate_desc a b = true)).
    + intros a b. apply price_order_spec.
    + apply distinct_from_sorted. exact Hsorted.
  - rewrite <- (map_map offer Post.productId), Hoffers.
    apply distinct_from_NoDup.
  - intros p Hin Hday.
    destruct (distinct_from_first Post.productId _ Hrefl ∅ sorted Hsorted p)
      as (x & Hx & Hkey & Hle).
    + apply Htoday. tauto.
    + apply not_elem_of_empty.
    + exists (annotate x). simpl. split; [now apply in_map |].
      split; [assumption | now apply price_order_spec].
Qed.

(** ** Product update *)

(** A unique-constraint violation of the store becomes CONFLICT. *)
Lemma product_update_conflict (ctx : Ctx) (input : ProductUpdateInput.t)
    (w w' : World) :
  product_update_schema input = [] ->
  db_product_update (ProductUpdateInput.id input) (ProductUpdateInput.name input)
    (ProductUpdateInput.categoryId input) w
    = (inl (PrismaClientKnownRequestError "P2002"), w') ->
  product_update ctx input w
    = (inl (TRPCError CONFLICT (Some "Ya existe un producto con ese nombre")), w').
Proof.
  intros Hvalid Hfail. unfold product_update, procedure. rewrite Hvalid.
  unfold product_update_mutation, catch, bind. rewrite Hfail. reflexivity.
Qed.

(** Any other failure of the store ends in the handler of [catch], which
    returns without throwing: the mutation resolves to [undefined]. *)
Lemma product_update_swallows (ctx : Ctx) (input : ProductUpdateInput.t)
    (w w' : World) (code : string) :
  product_update_schema input = [] ->
  db_product_update (ProductUpdateInput.id input) (ProductUpdateInput.name input)
    (ProductUpdateInput.categoryId input) w
    = (inl (PrismaClientKnownRequestError code), w') ->
  code <> "P2002" ->
  product_update ctx input w = (inr None, w').
Proof.
  intros Hvalid Hfail Hcode. unfold product_update, procedure. rewrite Hvalid.
  unfold product_update_mutation, catch, bind. rewrite Hfail.
  rewrite bool_decide_eq_false_2; [reflexivity |].
  simpl. congruence.
Qed.

(** C10, at the failing input.  The request renames a product whose id
    is not in the store: the input passes the schema, the write fails
    with P2025, and the mutation resolves to [undefined] instead of
    failing; the store is as it was. *)
Theorem product_update_unknown_id_resolves :
  product_update_schema Sample.rename_unknown = []
  /\ db_product_update (ProductUpdateInput.id Sample.rename_unknown)
       (ProductUpdateInput.name Sample.rename_unknown)
       (ProductUpdateInput.categoryId Sample.rename_unknown) Sample.catalogue
     = (inl (PrismaClientKnownRequestError "P2025"), Sample.catalogue)
  /\ product_update Sample.alice Sample.rename_unknown Sample.catalogue
     = (inr None, Sample.catalogue).
Proof.
  assert (Hvalid : product_update_schema Sample.rename_unknown = [])
    by (vm_compute; reflexivity).
  assert (Hfail : db_product_update (ProductUpdateInput.id Sample.rename_unknown)
       (ProductUpdateInput.name Sample.rename_unknown)
       (ProductUpdateInput.categoryId Sample.rename_unknown) Sample.catalogue
     = (inl (PrismaClientKnownRequestError "P2025"), Sample.catalogue))
    by reflexivity.
  split; [exact Hvalid |]. split; [exact Hfail |].
  apply (product_update_swallows _ _ _ _ "P2025" Hvalid Hfail). discriminate.
Qed.

(** * Further properties *)

(** ** Promotion, whatever the backend does *)

Section PromotionAlways.

Variable env : Env.

(** X1.  Promotion touches two keys only: whatever the backend answers,
    every other object of the bucket store is as it was, and so are the
    relational store and the clock. *)
Theorem promote_touches_two_keys (k : string) (w : World)
    (other : string * string) :
  other <> temporary env k ->
  other <> permanent env k ->
  objects (s3 (snd (validateS3image env k w))) !! other = objects (s3 w) !! other
  /\ db (snd (validateS3image env k w)) = db w
  /\ clock (snd (validateS3image env k w)) = clock w.
Proof.
  intros Htemp Hperm.
  split; [| apply validateS3image_frame].
  unfold temporary, permanent in *.
  unfold validateS3image, bind, catch, send_HeadObject, send_CopyObject,
    send_DeleteObject, throw, ret.
  repeat (case_match; simplify_eq/=);
    rewrite ?lookup_delete_ne, ?lookup_insert_ne by congruence; reflexivity.
Qed.

(** X2.  Whenever promotion returns, the copy has been made and the
    temporary object is gone: the result is the base URL, a slash and the
    key; the backend held an object under the temporary key and one under
    the key the copy source names, the latter is now under the permanent
    key (and it is the temporary object when the key has no character
    that percent-decoding changes), the temporary key holds nothing, and
    the head, the copy and the delete were sent, in that order.  This
    holds whatever the health of the backend. *)
Theorem promote_returns_means_moved (k : string) (w : World) (imageUrl : string) :
  no_slash (S3_BUCKET_NAME env) = true ->
  fst (validateS3image env k w) = inr imageUrl ->
  imageUrl = S3_BUCKET_URL env +:+ "/" +:+ k
  /\ (exists o copied,
        objects (s3 w) !! temporary env k = Some o
        /\ objects (s3 w) !! copied_from env k = Some copied
        /\ objects (s3 (snd (validateS3image env k w))) !! permanent env k
           = Some copied
        /\ (url_safe k = true -> copied = o))
  /\ objects (s3 (snd (validateS3image env k w))) !! temporary env k = None
  /\ sent (s3 (snd (validateS3image env k w)))
     = (sent (s3 w)
        ++ [HeadObjectCommand (S3_BUCKET_NAME env) (IMAGE_PREFIX +:+ k);
            CopyObjectCommand
              ((S3_BUCKET_NAME env +:+ "/") +:+ (IMAGE_PREFIX +:+ k))
              (S3_BUCKET_NAME env) k;
            DeleteObjectCommand (S3_BUCKET_NAME env) (IMAGE_PREFIX +:+ k)])%list.
Proof.
  intros Hslash.
  pose proof (temporary_ne_permanent env k) as Hne.
  pose proof (copied_from_safe env k) as Hsafe.
  unfold temporary, permanent, copied_from in *.
  unfold validateS3image, bind, catch, send_HeadObject, send_CopyObject,
    send_DeleteObject, copy_source, throw, ret. simpl.
  rewrite (split_at_slash_append _ _ Hslash).
  repeat (case_match; simplify_eq/=); intros Hreturn; simplify_eq.
  rewrite lookup_delete_eq, lookup_delete_ne, lookup_insert_eq by congruence.
  rewrite <- !app_assoc. simpl.
  split; [reflexivity |]. split; [| split; reflexivity].
  eexists _, _. repeat split.
  intros Hk. rewrite (Hsafe Hk) in *. congruence.
Qed.

(** X3.  Promotion never loses the image of a key that has no character
    that percent-decoding changes (a UUID is such a key): whatever the
    backend answers, the object that was under the temporary key is
    afterwards under the temporary key or under the permanent key. *)
Theorem promote_never_loses_image (k : string) (w : World) (o : S3Object) :
  no_slash (S3_BUCKET_NAME env) = true ->
  url_safe k = true ->
  objects (s3 w) !! temporary env k = Some o ->
  objects (s3 (snd (validateS3image env k w))) !! temporary env k = Some o
  \/ objects (s3 (snd (validateS3image env k w))) !! permanent env k = Some o.
Proof.
  intros Hslash Hk Ho.
  pose proof (temporary_ne_permanent env k) as Hne.
  unfold temporary, permanent in *.
  unfold validateS3image, bind, catch, send_HeadObject, send_CopyObject,
    send_DeleteObject, copy_source, throw, ret.
  rewrite (split_at_slash_append _ _ Hslash), (decode_prefixed k Hk). simpl.
  repeat (case_match; simplify_eq/=);
    rewrite ?lookup_delete_ne, ?lookup_insert_eq, ?lookup_insert_ne by congruence;
    auto.
  right. rewrite lookup_delete_ne by congruence. apply lookup_insert_eq.
Qed.

End PromotionAlways.

(** ** The day window, again *)

(** Two instants of one day at UTC-3 have the same day start. *)
Lemma dayStart_same_day (w w2 : World) :
  dayStart w <= clock w2 < dayStart w + day_ms -> dayStart w2 = dayStart w.
Proof.
  rewrite !dayStart_eq. unfold day_ms, minute_ms.
  Z.to_euclidean_division_equations. lia.
Qed.

(** From the next midnight at UTC-3 on, the day start is a later one. *)
Lemma dayStart_next_day (w w2 : World) :
  dayStart w + day_ms <= clock w2 -> dayStart w + day_ms <= dayStart w2.
Proof.
  rewrite !dayStart_eq. unfold day_ms, minute_ms.
  Z.to_euclidean_division_equations. lia.
Qed.

Lemma same_price_refl (a : Decimal) : same_price a a.
Proof. reflexivity. Qed.

Lemma same_price_sym (a b : Decimal) : same_price a b -> same_price b a.
Proof. unfold same_price. intros H. now rewrite H. Qed.

Lemma find_app {A : Type} (f : A -> bool) (l1 l2 : list A) :
  find f (l1 ++ l2)
  = match find f l1 with Some x => Some x | None => find f l2 end.
Proof.
  induction l1 as [|a l1 IH]; simpl; [reflexivity |].
  destruct (f a); [reflexivity | exact IH].
Qed.

(** ** Publication, case by case *)

Section PublicationCases.

Variable env : Env.
Variable newId : nat -> string.

(** Every run of [publish] is one of these. *)
Lemma publish_outcome (ctx : Ctx) (input : PublishInput.t) (w : World) :
  (publish_schema input <> []
   /\ publish env newId ctx input w = (inl (InputError (publish_schema input)), w))
  \/ (publish_schema input = []
      /\ exists o, existentPost w input = Some o
         /\ Post.authorId o = session_user_id ctx
         /\ publish env newId ctx input w = (inr ReturnsUndefined, w))
  \/ (publish_schema input = []
      /\ exists o code, existentPost w input = Some o
         /\ Post.authorId o <> session_user_id ctx
         /\ publish env newId ctx input w
            = (inl (PrismaClientKnownRequestError code), w))
  \/ (publish_schema input = []
      /\ exists o, existentPost w input = Some o
         /\ Post.authorId o <> session_user_id ctx
         /\ publish env newId ctx input w
            = (inr (ReturnsColaboration
                      {| Colaboration.id := newId (issued (db w));
                         Colaboration.postId := Post.id o;
                         Colaboration.userId := session_user_id ctx |}),
               with_db w
                 (set_colaborations (db w)
                    (colaborations (db w)
                     ++ [ {| Colaboration.id := newId (issued (db w));
                             Colaboration.postId := Post.id o;
                             Colaboration.userId := session_user_id ctx |} ])
                    (S (issued (db w))))))
  \/ (publish_schema input = []
      /\ existentPost w input = None
      /\ exists e failed,
           publish env newId ctx input w = (inl e, failed)
           /\ db failed = db w /\ clock failed = clock w)
  \/ (publish_schema input = []
      /\ existentPost w input = None
      /\ offer_rejection w ctx input = None
      /\ exists imageUrl promoted,
           validateS3image env (PublishInput.imageKey input) w
             = (inr imageUrl, promoted)
           /\ clock promoted = clock w
           /\ publish env newId ctx input w
              = (inr (ReturnsPost (new_offer newId ctx input imageUrl w)),
                 with_db promoted
                   (set_posts (db w)
                      (posts (db w) ++ [new_offer newId ctx input imageUrl w])
                      (S (issued (db w)))))).
Proof.
  unfold publish, procedure.
  destruct (publish_schema input) as [|issue issues] eqn:Hschema.
  2: { left. split; [discriminate | reflexivity]. }
  right. rewrite publish_mutation_cases.
  destruct (existentPost w input) as [o|] eqn:Hfound.
  - destruct (String.eqb_spec (Post.authorId o) (session_user_id ctx)) as [Hsame | Hother].
    + left. split; [reflexivity |]. exists o. auto.
    + right. unfold bind, db_colaboration_create.
      destruct (colaboration_rejection _ _ _) as [code|].
      * left. split; [reflexivity |]. exists o, code. auto.
      * right. left. split; [reflexivity |]. exists o. auto.
  - right. right. right. unfold bind.
    pose proof (create_mutation_spec env newId ctx input w) as Hcreate.
    destruct (validateS3image_frame env (PublishInput.imageKey input) w)
      as [Hdb Hclock].
    destruct (validateS3image env _ w) as [[e|imageUrl] w1]; simpl in *.
    + left. destruct Hcreate as [-> _]. split; [reflexivity |].
      split; [reflexivity |]. exists e, w1. auto.
    + destruct (offer_rejection w ctx input) as [code|] eqn:Hstore.
      * left. destruct Hcreate as [-> _]. split; [reflexivity |].
        split; [reflexivity |]. eexists _, w1. auto.
      * right. rewrite Hcreate. split; [reflexivity |].
        split; [reflexivity |]. split; [reflexivity |].
        exists imageUrl, w1. auto.
Qed.

End PublicationCases.

(** ** Publication over time *)

Section PublicationMore.

Variable env : Env.
Variable newId : nat -> string.

(** The Offer a publication writes is one of today, for the price of
    the input when the column keeps that price as it is. *)
Lemma new_offer_matches (ctx : Ctx) (input : PublishInput.t) (w w2 : World)
    (imageUrl : string) :
  dayStart w2 <= clock w ->
  (scale (PublishInput.price input) <= price_scale (db w))%nat ->
  matching_offer w2 input (new_offer newId ctx input imageUrl w).
Proof.
  intros Hday Hscale. unfold matching_offer, new_offer. simpl.
  rewrite (store_decimal_exact _ _ Hscale).
  split; [exact Hday |]. repeat split.
Qed.

(** X4.  [create] runs no duplicate test.  For a valid input whose
    product, commerce and author are rows of the store and whose price is
    in the range of the price column, whatever Offers the store holds,
    once the promotion returns a URL [create] returns a new Offer with
    that URL and appends it to the Offers (an Offer of today for the
    product, commerce and price of the input, when the price has no more
    decimals than the column); when the promotion fails, [create] fails
    with the same exception and the store is as it was. *)
Theorem create_adds_offer_regardless (ctx : Ctx) (input : PublishInput.t)
    (w : World) :
  publish_schema input = [] ->
  references_exist w ctx input ->
  price_fits w input ->
  match validateS3image env (PublishInput.imageKey input) w with
  | (inr imageUrl, promoted) =>
      let post := new_offer newId ctx input imageUrl w in
      fst (create env newId ctx input w) = inr post
      /\ posts (db (snd (create env newId ctx input w)))
         = (posts (db w) ++ [post])%list
      /\ ((scale (PublishInput.price input) <= price_scale (db w))%nat ->
            matching_offer (snd (create env newId ctx input w)) input post)
      /\ s3 (snd (create env newId ctx input w)) = s3 promoted
  | (inl e, failed) =>
      fst (create env newId ctx input w) = inl e
      /\ db (snd (create env newId ctx input w)) = db w
  end.
Proof.
  intros Hvalid Hrows Hfits. unfold create, procedure. rewrite Hvalid.
  pose proof (create_mutation_spec env newId ctx input w) as Hcreate.
  rewrite (offer_accepted w ctx input Hrows Hfits) in Hcreate.
  destruct (validateS3image_frame env (PublishInput.imageKey input) w)
    as [_ Hclock].
  destruct (validateS3image env _ w) as [[e|imageUrl] w1]; simpl in *.
  - destruct Hcreate as [-> Hdb]. auto.
  - rewrite Hcreate. simpl.
    split; [reflexivity |]. split; [reflexivity |]. split; [| reflexivity].
    intros Hscale. apply new_offer_matches; [| exact Hscale].
    rewrite dayStart_same_day with (w := w).
    + apply dayStart_window.
    + simpl. rewrite Hclock. apply dayStart_window.
Qed.

(** X5.  [publish] keeps the Offers canonical for prices the column
    keeps as they are: when the store holds at most one Offer of today for
    every product, commerce and price, and the price of the input has no
    more decimals than the price column, the store still holds at most
    one after [publish], whatever the user, the rest of the input and the
    health of the bucket. *)
Theorem publish_keeps_one_offer_per_key (ctx : Ctx) (input : PublishInput.t)
    (w : World) :
  (scale (PublishInput.price input) <= price_scale (db w))%nat ->
  one_offer_per_key w ->
  one_offer_per_key (snd (publish env newId ctx input w)).
Proof.
  intros Hscale Hone.
  destruct (publish_outcome env newId ctx input w)
    as [[_ ->] | [(_ & o & _ & _ & ->) | [(_ & o & code & _ & _ & ->)
       | [(_ & o & _ & _ & ->)
       | [(_ & _ & e & failed & -> & Hdb & Hclock)
       | (_ & Hnone & _ & imageUrl & promoted & _ & Hclock & ->)]]]]]; simpl.
  - exact Hone.
  - exact Hone.
  - exact Hone.
  - exact Hone.
  - unfold one_offer_per_key, dayStart in *. rewrite Hdb, Hclock. exact Hone.
  - rewrite existentPost_None in Hnone.
    assert (Hstart : forall x, dayStart (with_db promoted x) = dayStart w)
      by (intros x; unfold dayStart; simpl; now rewrite Hclock).
    assert (Hprice : Post.price (new_offer newId ctx input imageUrl w)
                     = PublishInput.price input)
      by (apply store_decimal_exact; exact Hscale).
    set (post := new_offer newId ctx input imageUrl w) in *.
    intros p q Hp Hq. simpl in Hp, Hq. rewrite Hstart.
    apply in_app_or in Hp as [Hp | [<- | []]];
      apply in_app_or in Hq as [Hq | [<- | []]].
    + now apply Hone.
    + intros Hday _ Hproduct Hcommerce Hsame. exfalso.
      apply (Hnone p Hp). rewrite Hprice in Hsame. repeat split; assumption.
    + intros _ Hday Hproduct Hcommerce Hsame. exfalso.
      apply (Hnone q Hq). rewrite Hprice in Hsame.
      repeat split; auto using same_price_sym.
    + reflexivity.
Qed.

(** X6.  [publish] only ever appends, and one row at most: the Offers
    and the Colaborations of the store are kept as they were, in order,
    followed by at most one new row in both tables together; the products
    are as they were. *)
Theorem publish_appends_at_most_one_row (ctx : Ctx) (input : PublishInput.t)
    (w : World) :
  exists (new_posts : list Post.t) (new_colaborations : list Colaboration.t),
    posts (db (snd (publish env newId ctx input w)))
      = (posts (db w) ++ new_posts)%list
    /\ colaborations (db (snd (publish env newId ctx input w)))
       = (colaborations (db w) ++ new_colaborations)%list
    /\ (List.length new_posts + List.length new_colaborations <= 1)%nat
    /\ products (db (snd (publish env newId ctx input w))) = products (db w).
Proof.
  destruct (publish_outcome env newId ctx input w)
    as [[_ ->] | [(_ & o & _ & _ & ->) | [(_ & o & code & _ & _ & ->)
       | [(_ & o & _ & _ & ->)
       | [(_ & _ & e & failed & -> & Hdb & Hclock)
       | (_ & Hnone & _ & imageUrl & promoted & _ & Hclock & ->)]]]]]; simpl.
  - exists [], []. rewrite !app_nil_r. auto.
  - exists [], []. rewrite !app_nil_r. auto.
  - exists [], []. rewrite !app_nil_r. auto.
  - eexists [], [_]. rewrite app_nil_r. simpl. auto.
  - exists [], []. rewrite Hdb, !app_nil_r. auto.
  - eexists [_], []. rewrite app_nil_r. simpl. auto.
Qed.

(** What the store holds after a publication that returned an Offer. *)
Lemma publish_returned_post (ctx : Ctx) (input : PublishInput.t) (w : World)
    (post : Post.t) :
  fst (publish env newId ctx input w) = inr (ReturnsPost post) ->
  publish_schema input = []
  /\ existentPost w input = None
  /\ posts (db (snd (publish env newId ctx input w))) = (posts (db w) ++ [post])%list
  /\ Post.publishDate post = clock w
  /\ Post.productId post = PublishInput.productId input
  /\ Post.commerceId post = PublishInput.commerceId input
  /\ Post.price post
     = store_decimal (price_scale (db w)) (PublishInput.price input)
  /\ Post.authorId post = session_user_id ctx.
Proof.
  destruct (publish_outcome env newId ctx input w)
    as [[_ ->] | [(_ & o & _ & _ & ->) | [(_ & o & code & _ & _ & ->)
       | [(_ & o & _ & _ & ->)
       | [(_ & _ & e & failed & -> & Hdb & Hclock)
       | (Hvalid & Hnone & _ & imageUrl & promoted & _ & Hclock & ->)]]]]];
    simpl; intros Hreturned; try discriminate.
  injection Hreturned as <-. repeat split; assumption.
Qed.

(** X7.  Within the day at UTC-3 of a publication that returned an
    Offer, for a price that has no more decimals than the price column,
    and with the Offers as that publication left them, the same input is
    a duplicate: published again by the author it does nothing and
    returns [undefined]; published by any other user of the store it
    returns a Colaboration on the Offer of the first publication. *)
Theorem republish_same_day (ctx : Ctx) (input : PublishInput.t) (w w2 : World)
    (post : Post.t) :
  fst (publish env newId ctx input w) = inr (ReturnsPost post) ->
  (scale (PublishInput.price input) <= price_scale (db w))%nat ->
  posts (db w2) = posts (db (snd (publish env newId ctx input w))) ->
  dayStart w <= clock w2 < dayStart w + day_ms ->
  publish env newId ctx input w2 = (inr ReturnsUndefined, w2)
  /\ (forall other : Ctx,
        session_user_id other <> session_user_id ctx ->
        In (session_user_id other) (users (db w2)) ->
        fst (publish env newId other input w2)
        = inr (ReturnsColaboration
                 {| Colaboration.id := newId (issued (db w2));
                    Colaboration.postId := Post.id post;
                    Colaboration.userId := session_user_id other |})).
Proof.
  intros Hreturned Hscale Hposts Hday.
  destruct (publish_returned_post ctx input w post Hreturned)
    as (Hvalid & Hnone & Hafter & Hdate & Hproduct & Hcommerce & Hprice & Hauthor).
  rewrite (store_decimal_exact _ _ Hscale) in Hprice.
  assert (Hfound : existentPost w2 input = Some post).
  { unfold existentPost in *.
    rewrite (dayStart_same_day w w2 Hday), Hposts, Hafter, find_app, Hnone.
    simpl.
    assert (Hmatch : publish_where (dayStart w) input post = true).
    { apply publish_where_matching. unfold matching_offer.
      rewrite Hdate, Hproduct, Hcommerce, Hprice.
      split; [apply dayStart_window |]. repeat split. }
    now rewrite Hmatch. }
  split.
  - unfold publish, procedure. rewrite Hvalid, publish_mutation_cases, Hfound.
    rewrite Hauthor, String.eqb_refl. reflexivity.
  - intros other Hother Huser.
    unfold publish, procedure. rewrite Hvalid, publish_mutation_cases, Hfound.
    rewrite Hauthor.
    apply not_eq_sym, String.eqb_neq in Hother. rewrite Hother.
    unfold bind, db_colaboration_create, colaboration_rejection.
    rewrite (existsb_key_In Post.id (Post.id post) (posts (db w2))).
    + rewrite (existsb_eqb_In _ _ Huser). reflexivity.
    + apply in_map. rewrite Hposts, Hafter. apply in_or_app. right. now left.
Qed.

(** X8.  From the next midnight at UTC-3 on, the Offer of a publication
    is no duplicate any more: with the Offers as that publication left
    them, the duplicate query for the same input finds nothing, and
    [publish] takes the create path again. *)
Theorem republish_next_day (ctx other : Ctx) (input : PublishInput.t)
    (w w3 : World) (post : Post.t) :
  fst (publish env newId ctx input w) = inr (ReturnsPost post) ->
  posts (db w3) = posts (db (snd (publish env newId ctx input w))) ->
  dayStart w + day_ms <= clock w3 ->
  publish_where (dayStart w3) input post = false
  /\ existentPost w3 input = None
  /\ publish env newId other input w3
     = (created <- create_mutation env newId other input ;;
        ret (ReturnsPost created)) w3.
Proof.
  intros Hreturned Hposts Hday.
  destruct (publish_returned_post ctx input w post Hreturned)
    as (Hvalid & Hnone & Hafter & Hdate & _).
  apply dayStart_next_day in Hday.
  pose proof (dayStart_window w) as [_ Hwindow].
  assert (Hstale : publish_where (dayStart w3) input post = false).
  { apply not_true_is_false. intros Hmatch.
    apply publish_where_matching in Hmatch as [Htoday _]. lia. }
  assert (Hempty : existentPost w3 input = None).
  { rewrite existentPost_None in Hnone. apply existentPost_None.
    rewrite Hposts, Hafter. intros o Ho Hmatch.
    apply in_app_or in Ho as [Ho | [<- | []]].
    - apply (Hnone o Ho). destruct Hmatch as (Htoday & Hrest).
      split; [lia | exact Hrest].
    - apply publish_where_matching in Hmatch. congruence. }
  split; [exact Hstale |]. split; [exact Hempty |].
  unfold publish, procedure. now rewrite Hvalid, publish_mutation_cases, Hempty.
Qed.

End PublicationMore.

(** ** Reading and deleting Offers *)

Lemma find_has_id_filtered (i : string) (l : list Post.t) :
  find (fun p => String.eqb (Post.id p) i)
    (List.filter (fun p => negb (String.eqb (Post.id p) i)) l) = None.
Proof.
  induction l as [|a l IH]; simpl; [reflexivity |].
  destruct (String.eqb (Post.id a) i) eqn:E; simpl; [exact IH |].
  now rewrite E.
Qed.

Lemma filter_removes_one (l : list Post.t) (p : Post.t) :
  List.NoDup (map Post.id l) -> In p l ->
  S (List.length
       (List.filter (fun r => negb (String.eqb (Post.id r) (Post.id p))) l))
  = List.length l.
Proof.
  induction l as [|a l IH]; simpl; [tauto |].
  intros Hnd Hin. apply NoDup_cons_iff in Hnd as [Hfresh Hnd].
  destruct (String.eqb_spec (Post.id a) (Post.id p)) as [Heq | Hne]; simpl.
  - f_equal. clear IH Hin.
    rewrite <- Heq.
    induction l as [|b l IH]; simpl; [reflexivity |].
    apply NoDup_cons_iff in Hnd as [_ Hnd]. simpl in Hfresh.
    destruct (String.eqb_spec (Post.id b) (Post.id a)) as [Hb | Hb]; simpl.
    + exfalso. apply Hfresh. now left.
    + f_equal. apply IH; [tauto | exact Hnd].
  - f_equal. destruct Hin as [-> | Hin]; [contradiction |]. now apply IH.
Qed.

(** Every run of [deleteOwnPost] is one of four. *)
Lemma deleteOwnPost_outcome (ctx : Ctx) (i : string) (w : World) :
  (z_uuid i = false
   /\ deleteOwnPost ctx i w = (inl (InputError ["Invalid uuid"]), w))
  \/ (z_uuid i = true
      /\ find (fun p => String.eqb (Post.id p) i) (posts (db w)) = None
      /\ deleteOwnPost ctx i w = (inl (TRPCError NOT_FOUND None), w))
  \/ (z_uuid i = true
      /\ exists p, find (fun p => String.eqb (Post.id p) i) (posts (db w)) = Some p
         /\ Post.authorId p <> session_user_id ctx
         /\ deleteOwnPost ctx i w
            = (inl (TRPCError FORBIDDEN
                      (Some "No eres el autor de la publicación")), w))
  \/ (z_uuid i = true
      /\ exists p, find (fun p => String.eqb (Post.id p) i) (posts (db w)) = Some p
         /\ Post.authorId p = session_user_id ctx
         /\ deleteOwnPost ctx i w
            = (inr p,
               with_db w
                 (set_posts (db w)
                    (List.filter (fun r => negb (String.eqb (Post.id r) i))
                       (posts (db w)))
                    (issued (db w))))).
Proof.
  unfold deleteOwnPost, procedure, deleteOwnPost_schema.
  destruct (z_uuid i); [right | left; auto].
  unfold deleteOwnPost_mutation, bind, db_post_findUnique, db_post_delete.
  destruct (find _ _) as [p|] eqn:Hfind; [right | left; auto].
  destruct (String.eqb_spec (Post.authorId p) (session_user_id ctx))
    as [Hown | Hother]; simpl.
  - right. split; [reflexivity |]. exists p. rewrite Hfind. auto.
  - left. split; [reflexivity |]. exists p. auto.
Qed.

(** X9.  [deleteOwnPost] removes one Offer or nothing.  On a table
    keyed by id, when it succeeds it returns an Offer of the store with
    the id asked for, written by the user of the session, and [getCount]
    is one less than before; when it fails, for whatever reason, the
    world is as it was. *)
Theorem deleteOwnPost_removes_one_or_nothing (ctx : Ctx) (i : string) (w : World) :
  List.NoDup (map Post.id (posts (db w))) ->
  match fst (deleteOwnPost ctx i w) with
  | inr p =>
      In p (posts (db w)) /\ Post.id p = i
      /\ Post.authorId p = session_user_id ctx
      /\ exists n, fst (getCount (snd (deleteOwnPost ctx i w))) = inr n
                   /\ fst (getCount w) = inr (S n)
  | inl _ => snd (deleteOwnPost ctx i w) = w
  end.
Proof.
  intros Hnd.
  destruct (deleteOwnPost_outcome ctx i w)
    as [[_ ->] | [(_ & _ & ->) | [(_ & p & _ & _ & ->)
       | (_ & p & Hfind & Hown & ->)]]]; simpl; try reflexivity.
  apply find_some in Hfind as [Hin Hid]. apply String.eqb_eq in Hid.
  repeat split; try assumption.
  eexists. split; [reflexivity |]. f_equal. symmetry. subst i.
  now apply filter_removes_one.
Qed.

(** X10.  After a successful [deleteOwnPost] the Offer is gone for
    every user: [getById] with its id returns nothing, and deleting it
    once more fails with NOT_FOUND. *)
Theorem deleteOwnPost_then_gone (ctx reader : Ctx) (i : string) (w : World)
    (p : Post.t) :
  fst (deleteOwnPost ctx i w) = inr p ->
  getById reader i (snd (deleteOwnPost ctx i w))
    = (inr None, snd (deleteOwnPost ctx i w))
  /\ deleteOwnPost reader i (snd (deleteOwnPost ctx i w))
     = (inl (TRPCError NOT_FOUND None), snd (deleteOwnPost ctx i w)).
Proof.
  destruct (deleteOwnPost_outcome ctx i w)
    as [[_ ->] | [(_ & _ & ->) | [(_ & q & _ & _ & ->)
       | (Hvalid & q & Hfind & Hown & ->)]]]; simpl; try discriminate.
  intros _. split.
  - unfold getById, procedure, getById_schema. rewrite Hvalid.
    unfold getById_query. simpl. now rewrite find_has_id_filtered.
  - unfold deleteOwnPost, procedure, deleteOwnPost_schema. rewrite Hvalid.
    unfold deleteOwnPost_mutation, bind, db_post_findUnique. simpl.
    now rewrite find_has_id_filtered.
Qed.

Lemma publishDate_desc_total (a b : Post.t) :
  publishDate_desc a b = false -> publishDate_desc b a = true.
Proof. unfold publishDate_desc. rewrite Z.leb_gt, Z.leb_le. lia. Qed.

Lemma publishDate_desc_trans (a b c : Post.t) :
  publishDate_desc a b = true -> publishDate_desc b c = true ->
  publishDate_desc a c = true.
Proof. unfold publishDate_desc. rewrite !Z.leb_le. lia. Qed.

(** X11.  [getOwnPosts] returns the Offers of the user of the session,
    all of them and no other, the most recent first, each with its
    Colaborations; on a table keyed by id these are exactly the Offers
    [deleteOwnPost] accepts to delete for that user. *)
Theorem getOwnPosts_are_the_deletable (ctx : Ctx) (w : World) :
  List.NoDup (map Post.id (posts (db w))) ->
  exists rows,
    getOwnPosts ctx w = (inr rows, w)
    /\ (forall p, In p (map PostDetail.post rows) <->
          In p (posts (db w)) /\ Post.authorId p = session_user_id ctx)
    /\ StronglySorted (fun a b => Post.publishDate b <= Post.publishDate a)
         (map PostDetail.post rows)
    /\ (forall row, In row rows ->
          forall c, In c (PostDetail.colaborations row) <->
            In c (colaborations (db w))
            /\ Colaboration.postId c = Post.id (PostDetail.post row))
    /\ (forall p, In p (posts (db w)) -> z_uuid (Post.id p) = true ->
          (In p (map PostDetail.post rows)
           <-> fst (deleteOwnPost ctx (Post.id p) w) = inr p)).
Proof.
  intros Hnd. unfold getOwnPosts.
  set (own := List.filter
                (fun p => String.eqb (Post.authorId p) (session_user_id ctx))
                (posts (db w))).
  set (sorted := order_by publishDate_desc own).
  assert (Hposts : map PostDetail.post (map (detail (db w)) sorted) = sorted).
  { rewrite map_map. simpl. apply map_id. }
  assert (Hown : forall p, In p sorted <->
            In p (posts (db w)) /\ Post.authorId p = session_user_id ctx).
  { intros p. unfold sorted, own.
    now rewrite order_by_In, filter_In, String.eqb_eq. }
  exists (map (detail (db w)) sorted). rewrite Hposts.
  split; [reflexivity |]. split; [exact Hown |]. split; [| split].
  - apply (StronglySorted_weaken (fun a b => publishDate_desc a b = true)).
    + intros a b. unfold publishDate_desc. apply Z.leb_le.
    + exact (order_by_sorted _ publishDate_desc_total publishDate_desc_trans own).
  - intros row Hrow c. apply in_map_iff in Hrow as (p & <- & _). simpl.
    unfold colaborations_of. now rewrite filter_In, String.eqb_eq.
  - intros p Hin Hvalid. rewrite Hown.
    pose proof (findUnique_present w (Post.id p) p Hnd Hin eq_refl) as Hfind.
    unfold db_post_findUnique in Hfind. injection Hfind as Hfind.
    destruct (deleteOwnPost_outcome ctx (Post.id p) w)
      as [[Hbad _] | [(_ & Hnone & _) | [(_ & q & Hq & Hother & ->)
         | (_ & q & Hq & Hsame & ->)]]]; simpl; try congruence.
    + assert (q = p) by congruence. subst q.
      split; [intros [_ Hauthor]; contradiction | discriminate].
    + assert (q = p) by congruence. subst q. tauto.
Qed.

Section ReadBack.

Variable env : Env.
Variable newId : nat -> string.

(** X12.  An Offer [publish] returns can be read back.  When the id the
    store gave it is a UUID that no earlier Offer has, [getById] with that
    id returns, to any user, that Offer with its Colaborations, and
    [getCount] is one more than before the publication. *)
Theorem publish_then_getById (ctx reader : Ctx) (input : PublishInput.t)
    (w : World) (post : Post.t) :
  fst (publish env newId ctx input w) = inr (ReturnsPost post) ->
  z_uuid (Post.id post) = true ->
  (forall p, In p (posts (db w)) -> Post.id p <> Post.id post) ->
  fst (getById reader (Post.id post) (snd (publish env newId ctx input w)))
    = inr (Some (detail (db (snd (publish env newId ctx input w))) post))
  /\ exists n, fst (getCount w) = inr n
               /\ fst (getCount (snd (publish env newId ctx input w))) = inr (S n).
Proof.
  intros Hreturned Hvalid Hfresh.
  destruct (publish_returned_post env newId ctx input w post Hreturned)
    as (_ & _ & Hafter & _).
  split.
  - unfold getById, procedure, getById_schema. rewrite Hvalid.
    unfold getById_query. simpl. rewrite Hafter, find_app.
    destruct (find _ (posts (db w))) as [p|] eqn:Hfind.
    + apply find_some in Hfind as [Hin Hid]. apply String.eqb_eq in Hid.
      now apply Hfresh in Hin.
    + simpl. now rewrite String.eqb_refl.
  - exists (List.length (posts (db w))). split; [reflexivity |].
    unfold getCount. simpl. rewrite Hafter, length_app. simpl.
    f_equal. lia.
Qed.

End ReadBack.


(** ** The product router *)

Lemma existsb_name_taken (name : string) (l : list Product.t) :
  existsb (fun q => String.eqb (Product.name q) name) l = true
  <-> In name (map Product.name l).
Proof.
  rewrite existsb_exists, in_map_iff.
  split; intros (q & H1 & H2).
  - exists q. apply String.eqb_eq in H2. auto.
  - exists q. split; [assumption | now apply String.eqb_eq].
Qed.

Lemma existsb_eqb_iff (x : string) (l : list string) :
  existsb (String.eqb x) l = true <-> In x l.
Proof.
  split; [| apply existsb_eqb_In].
  intros H. apply existsb_exists in H as (y & Hy & Heq).
  apply String.eqb_eq in Heq. now subst.
Qed.

(** What the store answers to a product, by name and category. *)
Lemma product_rejection_cases (d : Db) (others : list Product.t)
    (name categoryId : string) :
  (In name (map Product.name others) ->
     product_rejection d others name categoryId = Some "P2002")
  /\ (~ In name (map Product.name others) ->
        ~ In categoryId (categories d) ->
        product_rejection d others name categoryId = Some "P2003")
  /\ (~ In name (map Product.name others) ->
        In categoryId (categories d) ->
        product_rejection d others name categoryId = None).
Proof.
  unfold product_rejection.
  destruct (existsb (fun q => String.eqb (Product.name q) name) others) eqn:Hname;
    [apply existsb_name_taken in Hname |];
    destruct (existsb (String.eqb categoryId) (categories d)) eqn:Hcat;
    try apply existsb_eqb_iff in Hcat;
    repeat split; intros; try reflexivity; try contradiction;
    repeat match goal with
    | H : In _ (map Product.name _) |- _ => apply existsb_name_taken in H
    | H : In _ (categories _) |- _ => apply existsb_eqb_iff in H
    end; congruence.
Qed.

Section ProductRouter.

Variable newId : nat -> string.

(** X13.  [create] of the product router, on a valid input: when a
    product of that name exists, the rejection of the store (P2002)
    reaches the caller as it is, not as CONFLICT, and so does the
    rejection of a category the store does not hold (P2003); the store is
    as it was in both cases.  Otherwise one product with that name and
    category is appended and the mutation resolves to nothing. *)
Theorem product_create_outcome (ctx : Ctx) (input : ProductCreateInput.t)
    (w : World) :
  product_create_schema input = [] ->
  (In (ProductCreateInput.name input) (map Product.name (products (db w))) ->
     product_create newId ctx input w
       = (inl (PrismaClientKnownRequestError "P2002"), w))
  /\ (~ In (ProductCreateInput.name input) (map Product.name (products (db w))) ->
        ~ In (ProductCreateInput.categoryId input) (categories (db w)) ->
        product_create newId ctx input w
          = (inl (PrismaClientKnownRequestError "P2003"), w))
  /\ (~ In (ProductCreateInput.name input) (map Product.name (products (db w))) ->
        In (ProductCreateInput.categoryId input) (categories (db w)) ->
        fst (product_create newId ctx input w) = inr tt
        /\ products (db (snd (product_create newId ctx input w)))
           = (products (db w)
              ++ [ {| Product.id := newId (issued (db w));
                      Product.name := ProductCreateInput.name input;
                      Product.categoryId := ProductCreateInput.categoryId input |} ])%list
        /\ posts (db (snd (product_create newId ctx input w))) = posts (db w)).
Proof.
  intros Hvalid. unfold product_create, procedure. rewrite Hvalid.
  unfold product_create_mutation, bind, db_product_create.
  destruct (product_rejection_cases (db w) (products (db w))
              (ProductCreateInput.name input)
              (ProductCreateInput.categoryId input))
    as (Htaken & Horphan & Hfree).
  split; [| split].
  - intros Hname. now rewrite (Htaken Hname).
  - intros Hname Hcat. now rewrite (Horphan Hname Hcat).
  - intros Hname Hcat. rewrite (Hfree Hname Hcat). repeat split.
Qed.

(** X14.  [update] of the product router, on a valid input: when the
    store holds a product with the id, no other product has the new name
    and the store holds the category, the mutation resolves to the
    updated product; the table has the same length, holds the updated
    product, and every product with another id is as it was. *)
Theorem product_update_renames (ctx : Ctx) (input : ProductUpdateInput.t)
    (w : World) (old : Product.t) :
  product_update_schema input = [] ->
  In old (products (db w)) ->
  Product.id old = ProductUpdateInput.id input ->
  (forall r, In r (products (db w)) ->
     Product.id r <> ProductUpdateInput.id input ->
     Product.name r <> ProductUpdateInput.name input) ->
  In (ProductUpdateInput.categoryId input) (categories (db w)) ->
  let row := {| Product.id := ProductUpdateInput.id input;
                Product.name := ProductUpdateInput.name input;
                Product.categoryId := ProductUpdateInput.categoryId input |} in
  fst (product_update ctx input w) = inr (Some row)
  /\ List.length (products (db (snd (product_update ctx input w))))
     = List.length (products (db w))
  /\ (forall r, In r (products (db (snd (product_update ctx input w)))) <->
        r = row
        \/ (In r (products (db w)) /\ Product.id r <> ProductUpdateInput.id input)).
Proof.
  intros Hvalid Hin Hid Hfree Hcat row.
  unfold product_update, procedure. rewrite Hvalid.
  unfold product_update_mutation, catch, bind, db_product_update.
  destruct (find _ _) as [found|] eqn:Hfind.
  2: { apply (find_none _ _ Hfind) in Hin. apply String.eqb_neq in Hin.
       contradiction. }
  destruct (product_rejection_cases (db w)
              (List.filter (fun q => negb (String.eqb (Product.id q)
                                             (ProductUpdateInput.id input)))
                 (products (db w)))
              (ProductUpdateInput.name input)
              (ProductUpdateInput.categoryId input))
    as (_ & _ & Haccepts).
  rewrite Haccepts; [| | exact Hcat].
  2: { intros Hname. apply in_map_iff in Hname as (r & Hname & Hr).
       apply filter_In in Hr as [Hr Hother].
       apply negb_true_iff, String.eqb_neq in Hother.
       exact (Hfree r Hr Hother Hname). }
  simpl. split; [reflexivity |]. split; [apply length_map |].
  intros r. rewrite in_map_iff. split.
  - intros (q & Hq & Hqin).
    destruct (String.eqb_spec (Product.id q) (ProductUpdateInput.id input));
      subst; auto.
  - intros [-> | [Hr Hne]].
    + exists old. apply String.eqb_eq in Hid. rewrite Hid. auto.
    + exists r. apply String.eqb_neq in Hne. rewrite Hne. auto.
Qed.

End ProductRouter.

(** ** From the signed URL to the Offer *)

Lemma hex_digit_url_safe (c : ascii) :
  is_hex_digit c = true -> url_safe_char c = true.
Proof.
  destruct c as [[] [] [] [] [] [] [] []]; vm_compute; congruence.
Qed.

Lemma hex_run_url_safe (n : nat) (s r : string) :
  hex_run n s = Some r -> url_safe r = true -> url_safe s = true.
Proof.
  revert s. induction n as [|n IH]; simpl; intros s Hrun Hr.
  - now injection Hrun as ->.
  - destruct s as [|c s]; [discriminate |].
    destruct (is_hex_digit c) eqn:Hc; [| discriminate].
    simpl. rewrite (hex_digit_url_safe c Hc). simpl. now apply IH.
Qed.

Lemma dash_url_safe (s r : string) :
  dash s = Some r -> url_safe r = true -> url_safe s = true.
Proof.
  destruct s as [|c s]; simpl; [discriminate |].
  destruct (Ascii.eqb_spec c "-") as [-> |]; [| discriminate].
  intros Hdash Hr. injection Hdash as ->. exact Hr.
Qed.

Lemma hex_groups_url_safe (groups : list nat) (s r : string) :
  hex_groups groups s = Some r -> url_safe r = true -> url_safe s = true.
Proof.
  revert s. induction groups as [|n groups IH]; simpl; intros s Hgroups Hr.
  - now injection Hgroups as ->.
  - destruct (hex_run n s) as [r1|] eqn:Hrun; [| discriminate].
    destruct groups as [|m groups].
    + injection Hgroups as ->. exact (hex_run_url_safe n s r Hrun Hr).
    + destruct (dash r1) as [r2|] eqn:Hdash; [| discriminate].
      apply (hex_run_url_safe n s r1 Hrun).
      apply (dash_url_safe r1 r2 Hdash).
      now apply IH.
Qed.

(** Percent-decoding leaves a UUID alone. *)
Lemma z_uuid_url_safe (s : string) : z_uuid s = true -> url_safe s = true.
Proof.
  unfold z_uuid. intros H.
  destruct (hex_groups _ s) as [[|c r]|] eqn:Hgroups; try discriminate.
  exact (hex_groups_url_safe _ s EmptyString Hgroups eq_refl).
Qed.

Section Upload.

Variable env : Env.
Variable newId : nat -> string.

(** Promotion on a healthy bucket that holds the temporary object. *)
Lemma validateS3image_healthy (k : string) (w : World) (o : S3Object) :
  no_slash (S3_BUCKET_NAME env) = true ->
  url_safe k = true ->
  healthy (s3 w) ->
  objects (s3 w) !! temporary env k = Some o ->
  fst (validateS3image env k w) = inr (S3_BUCKET_URL env +:+ "/" +:+ k)
  /\ objects (s3 (snd (validateS3image env k w))) !! permanent env k = Some o
  /\ objects (s3 (snd (validateS3image env k w))) !! temporary env k = None.
Proof.
  intros Hslash Hk (Hhead & Hcopy & Hdelete) Ho.
  pose proof (temporary_ne_permanent env k) as Hne.
  unfold validateS3image, bind, catch.
  rewrite (head_passes env k w o Ho Hhead).
  unfold send_CopyObject, copy_source.
  cbn [copy_behaviour s3 with_s3 record_command objects]. rewrite Hcopy.
  rewrite (split_at_slash_append _ _ Hslash), (decode_prefixed k Hk).
  unfold temporary, permanent in *. simpl. rewrite Ho. simpl.
  unfold send_DeleteObject, ret. simpl. rewrite Hdelete. simpl.
  rewrite lookup_delete_eq, lookup_delete_ne, lookup_insert_eq by congruence.
  auto.
Qed.

(** X16.  The key [getImageSignedUrl] hands out is the key promotion
    expects.  For an accepted mimetype and a random key that is a UUID,
    the query returns that key, a life time of 3600 seconds and a URL
    signed for the prefixed key, and leaves the world as it was; once an
    object is uploaded through that URL to a healthy bucket, promoting
    the key returns the public URL of the key, the permanent key holds
    the uploaded object, the temporary key holds nothing, and a valid
    [publish] with that key that finds no duplicate, connects rows of the
    store and has a price in the range of the column returns an Offer
    with that URL. *)
Theorem upload_then_promote (randomUUID : string) (image : S3Object) (ctx : Ctx)
    (input : SignedUrlInput.t) (w : World) :
  getImageSignedUrl_schema input = [] ->
  z_uuid randomUUID = true ->
  no_slash (S3_BUCKET_NAME env) = true ->
  healthy (s3 w) ->
  exists signed,
    getImageSignedUrl env randomUUID ctx input w = (inr signed, w)
    /\ key signed = randomUUID
    /\ expiresIn signed = 3600
    /\ (put_Bucket (url signed), put_Key (url signed)) = temporary env randomUUID
    /\ let w1 := uploaded (url signed) image w in
       fst (validateS3image env (key signed) w1)
         = inr (S3_BUCKET_URL env +:+ "/" +:+ randomUUID)
       /\ objects (s3 (snd (validateS3image env (key signed) w1)))
            !! permanent env randomUUID = Some image
       /\ objects (s3 (snd (validateS3image env (key signed) w1)))
            !! temporary env randomUUID = None
       /\ (forall (author : Ctx) (offer : PublishInput.t),
             publish_schema offer = [] ->
             PublishInput.imageKey offer = key signed ->
             existentPost w offer = None ->
             references_exist w author offer ->
             price_fits w offer ->
             fst (publish env newId author offer w1)
             = inr (ReturnsPost
                      (new_offer newId author offer
                         (S3_BUCKET_URL env +:+ "/" +:+ randomUUID) w))).
Proof.
  intros Hvalid Huuid Hslash Hhealthy.
  pose proof (z_uuid_url_safe randomUUID Huuid) as Hsafe.
  unfold getImageSignedUrl, procedure. rewrite Hvalid.
  unfold getImageSignedUrl_query, ret. eexists. split; [reflexivity |]. simpl.
  split; [reflexivity |]. split; [reflexivity |]. split; [reflexivity |].
  set (u := {| put_Bucket := S3_BUCKET_NAME env;
               put_Key := IMAGE_PREFIX +:+ randomUUID;
               put_ContentType := SignedUrlInput.mimetype input;
               put_ContentLength := SignedUrlInput.length input;
               put_Metadata_author := session_user_id ctx;
               put_expiresIn := 3600 |}).
  assert (Hthere : objects (s3 (uploaded u image w)) !! temporary env randomUUID
                   = Some image)
    by (unfold uploaded, temporary; simpl; apply lookup_insert_eq).
  assert (Hstill : healthy (s3 (uploaded u image w))) by exact Hhealthy.
  destruct (validateS3image_healthy randomUUID (uploaded u image w) image
              Hslash Hsafe Hstill Hthere) as (Hurl & Hperm & Hgone).
  split; [exact Hurl |]. split; [exact Hperm |]. split; [exact Hgone |].
  intros author offer Hoffer Hkey Hnone Hrows Hfits.
  unfold publish, procedure. rewrite Hoffer, publish_mutation_cases.
  change (existentPost (uploaded u image w) offer) with (existentPost w offer).
  rewrite Hnone. unfold bind.
  pose proof (create_mutation_spec env newId author offer (uploaded u image w))
    as Hcreate.
  change (offer_rejection (uploaded u image w) author offer)
    with (offer_rejection w author offer) in Hcreate.
  rewrite (offer_accepted w author offer Hrows Hfits), Hkey in Hcreate.
  destruct (validateS3image env randomUUID (uploaded u image w))
    as [[e|imageUrl] w2]; simpl in *; [discriminate |].
  rewrite Hcreate. simpl. injection Hurl as ->. reflexivity.
Qed.

End Upload.

(** ** The statements at the sample data *)

(** Alice publishes the first Offer of the day. *)
Lemma publish_creates_offer_witness :
  publish_schema (Sample.input_at Sample.ten) = []
  /\ references_exist Sample.fresh Sample.alice (Sample.input_at Sample.ten)
  /\ price_fits Sample.fresh (Sample.input_at Sample.ten)
  /\ (forall o, In o (posts (db Sample.fresh)) ->
        ~ matching_offer Sample.fresh (Sample.input_at Sample.ten) o)
  /\ fst (publish Sample.env Sample.ids Sample.alice (Sample.input_at Sample.ten)
            Sample.fresh)
     = inr (ReturnsPost
              {| Post.id := Sample.ids 0;
                 Post.productId := Sample.yerba;
                 Post.commerceId := Sample.almacen;
                 Post.image := "https://cdn.example.org/abc";
                 Post.price := Sample.ten;
                 Post.publishDate := Sample.today;
                 Post.authorId := "alice" |}).
Proof.
  assert (Hvalid : publish_schema (Sample.input_at Sample.ten) = [])
    by (vm_compute; reflexivity).
  assert (Hrows : references_exist Sample.fresh Sample.alice
                    (Sample.input_at Sample.ten))
    by (repeat split; simpl; auto).
  assert (Hfits : price_fits Sample.fresh (Sample.input_at Sample.ten))
    by (vm_compute; reflexivity).
  assert (Hnone : forall o, In o (posts (db Sample.fresh)) ->
            ~ matching_offer Sample.fresh (Sample.input_at Sample.ten) o)
    by (intros o []).
  split; [exact Hvalid |]. split; [exact Hrows |]. split; [exact Hfits |].
  split; [exact Hnone |].
  generalize (publish_creates_offer Sample.env Sample.ids Sample.alice
                (Sample.input_at Sample.ten) Sample.fresh Hvalid Hrows Hfits
                Hnone).
  vm_compute. intros H. apply H.
Defined.

(** C1, as the claim has it, fails on a valid input that names a product
    the store does not hold: no Offer of today matches and the image is
    promoted (the permanent key holds it, the temporary key holds
    nothing), yet [publish] fails with the rejection of the store and no
    Offer is written.  And a price with more decimals than the column is
    not stored as it is: the Offer returned for 1e-31 carries the price
    0. *)
Lemma publish_rejected_by_store :
  publish_schema Tour.unknown_product = []
  /\ (forall o, In o (posts (db Sample.fresh)) ->
        ~ matching_offer Sample.fresh Tour.unknown_product o)
  /\ fst (publish Sample.env Sample.ids Sample.alice Tour.unknown_product
            Sample.fresh)
     = inl (PrismaClientKnownRequestError "P2025")
  /\ posts (db (snd (publish Sample.env Sample.ids Sample.alice
                       Tour.unknown_product Sample.fresh))) = []
  /\ objects (s3 (snd (publish Sample.env Sample.ids Sample.alice
                         Tour.unknown_product Sample.fresh)))
       !! permanent Sample.env "abc" = Some Sample.photo
  /\ objects (s3 (snd (publish Sample.env Sample.ids Sample.alice
                         Tour.unknown_product Sample.fresh)))
       !! temporary Sample.env "abc" = None
  /\ publish_schema (Sample.input_at Tour.tiny) = []
  /\ fst (publish Sample.env Sample.ids Sample.alice (Sample.input_at Tour.tiny)
            Sample.fresh)
     = inr (ReturnsPost
              {| Post.id := Sample.ids 0;
                 Post.productId := Sample.yerba;
                 Post.commerceId := Sample.almacen;
                 Post.image := "https://cdn.example.org/abc";
                 Post.price := {| coef := 0; scale := 30 |};
                 Post.publishDate := Sample.today;
                 Post.authorId := "alice" |})
  /\ ~ same_price {| coef := 0; scale := 30 |} Tour.tiny.
Proof.
  split; [vm_compute; reflexivity |].
  split; [intros o [] |].
  repeat split; try (vm_compute; reflexivity).
  vm_compute. discriminate.
Qed.

(** Bob publishes what Alice published an hour ago. *)
Lemma publish_collaborates_witness :
  publish_schema (Sample.input_at Sample.ten) = []
  /\ In (session_user_id Sample.bob) (users (db Sample.published))
  /\ existentPost Sample.published (Sample.input_at Sample.ten)
     = Some Sample.alice_offer
  /\ Post.authorId Sample.alice_offer <> session_user_id Sample.bob
  /\ fst (publish Sample.env Sample.ids Sample.bob (Sample.input_at Sample.ten)
            Sample.published)
     = inr (ReturnsColaboration
              {| Colaboration.id := Sample.ids 1;
                 Colaboration.postId := Sample.ids 0;
                 Colaboration.userId := "bob" |}).
Proof.
  assert (Hvalid : publish_schema (Sample.input_at Sample.ten) = [])
    by (vm_compute; reflexivity).
  assert (Huser : In (session_user_id Sample.bob) (users (db Sample.published)))
    by (simpl; auto).
  assert (Hfound : existentPost Sample.published (Sample.input_at Sample.ten)
                   = Some Sample.alice_offer) by (vm_compute; reflexivity).
  assert (Hauthor : Post.authorId Sample.alice_offer <> session_user_id Sample.bob)
    by discriminate.
  split; [exact Hvalid |]. split; [exact Huser |]. split; [exact Hfound |].
  split; [exact Hauthor |].
  destruct (publish_collaborates Sample.env Sample.ids Sample.bob
              (Sample.input_at Sample.ten) Sample.published Sample.alice_offer
              Hvalid Huser Hfound Hauthor) as (_ & _ & Hreturned & _).
  exact Hreturned.
Defined.

(** C2, as the claim has it, fails when the Offer of another author is
    not the first that matches: Alice's Offer is stored before Bob's,
    both match, Bob's has another author than Alice, yet Alice's
    [publish] returns [undefined] and writes no Colaboration.  It also
    fails for a session whose user the store does not hold: the store
    rejects the Colaboration. *)
Lemma publish_first_match_decides :
  publish_schema (Sample.input_at Sample.ten) = []
  /\ In Tour.bob_offer (posts (db Tour.alice_then_bob))
  /\ matching_offer Tour.alice_then_bob (Sample.input_at Sample.ten) Tour.bob_offer
  /\ Post.authorId Tour.bob_offer <> session_user_id Sample.alice
  /\ publish Sample.env Sample.ids Sample.alice (Sample.input_at Sample.ten)
       Tour.alice_then_bob
     = (inr ReturnsUndefined, Tour.alice_then_bob)
  /\ existentPost Sample.published (Sample.input_at Sample.ten)
     = Some Sample.alice_offer
  /\ Post.authorId Sample.alice_offer <> session_user_id Tour.mallory
  /\ publish Sample.env Sample.ids Tour.mallory (Sample.input_at Sample.ten)
       Sample.published
     = (inl (PrismaClientKnownRequestError "P2025"), Sample.published).
Proof.
  split; [vm_compute; reflexivity |].
  split; [right; left; reflexivity |].
  split; [unfold matching_offer; repeat split; vm_compute; congruence |].
  split; [discriminate |].
  split; [vm_compute; reflexivity |].
  split; [vm_compute; reflexivity |].
  split; [discriminate |].
  vm_compute. reflexivity.
Qed.

(** Alice publishes again what she published an hour ago. *)
Lemma publish_same_author_noop_witness :
  publish_schema (Sample.input_at Sample.ten) = []
  /\ existentPost Sample.published (Sample.input_at Sample.ten)
     = Some Sample.alice_offer
  /\ Post.authorId Sample.alice_offer = session_user_id Sample.alice
  /\ publish Sample.env Sample.ids Sample.alice (Sample.input_at Sample.ten)
       Sample.published
     = (inr ReturnsUndefined, Sample.published).
Proof.
  assert (Hvalid : publish_schema (Sample.input_at Sample.ten) = [])
    by (vm_compute; reflexivity).
  assert (Hfound : existentPost Sample.published (Sample.input_at Sample.ten)
                   = Some Sample.alice_offer) by (vm_compute; reflexivity).
  assert (Hauthor : Post.authorId Sample.alice_offer = session_user_id Sample.alice)
    by reflexivity.
  split; [exact Hvalid |]. split; [exact Hfound |]. split; [exact Hauthor |].
  apply (publish_same_author_noop Sample.env Sample.ids Sample.alice
           (Sample.input_at Sample.ten) Sample.published Sample.alice_offer
           Hvalid Hfound Hauthor).
Defined.

(** C3, as the claim has it, fails when the Offer of the user is not
    the first that matches: Bob's Offer is stored before Alice's, both
    match, Alice's has Alice as author, yet Alice's [publish] writes and
    returns a Colaboration on Bob's Offer. *)
Lemma publish_own_offer_not_first :
  publish_schema (Sample.input_at Sample.ten) = []
  /\ In Sample.alice_offer (posts (db Tour.bob_then_alice))
  /\ matching_offer Tour.bob_then_alice (Sample.input_at Sample.ten)
       Sample.alice_offer
  /\ Post.authorId Sample.alice_offer = session_user_id Sample.alice
  /\ fst (publish Sample.env Sample.ids Sample.alice (Sample.input_at Sample.ten)
            Tour.bob_then_alice)
     = inr (ReturnsColaboration
              {| Colaboration.id := Sample.ids 2;
                 Colaboration.postId := Post.id Tour.bob_offer;
                 Colaboration.userId := "alice" |})
  /\ List.length
       (colaborations
          (db (snd (publish Sample.env Sample.ids Sample.alice
                      (Sample.input_at Sample.ten) Tour.bob_then_alice))))
     = 1%nat.
Proof.
  split; [vm_compute; reflexivity |].
  split; [right; left; reflexivity |].
  split; [unfold matching_offer; repeat split; vm_compute; congruence |].
  split; [reflexivity |].
  split; vm_compute; reflexivity.
Qed.

(** Bob publishes at 10.00 what Alice published at 10.01: a second
    Offer. *)
Lemma publish_price_exact_witness :
  publish_schema (Sample.input_at Sample.ten) = []
  /\ existentPost Sample.published_10_01 (Sample.input_at Sample.ten) = None
  /\ fst (publish Sample.env Sample.ids Sample.bob (Sample.input_at Sample.ten)
            Sample.published_10_01)
     = inr (ReturnsPost
              {| Post.id := Sample.ids 1;
                 Post.productId := Sample.yerba;
                 Post.commerceId := Sample.almacen;
                 Post.image := "https://cdn.example.org/abc";
                 Post.price := Sample.ten;
                 Post.publishDate := Sample.today;
                 Post.authorId := "bob" |})
  /\ length (posts (db (snd (publish Sample.env Sample.ids Sample.bob
                               (Sample.input_at Sample.ten)
                               Sample.published_10_01)))) = 2%nat.
Proof.
  assert (Hvalid : publish_schema (Sample.input_at Sample.ten) = [])
    by (vm_compute; reflexivity).
  assert (Hdiffer : forall o, In o (posts (db Sample.published_10_01)) ->
       dayStart Sample.published_10_01 <= Post.publishDate o ->
       Post.productId o = PublishInput.productId (Sample.input_at Sample.ten) ->
       Post.commerceId o = PublishInput.commerceId (Sample.input_at Sample.ten) ->
       coef (Post.price o) * pow10 (scale (PublishInput.price (Sample.input_at Sample.ten)))
         <> coef (PublishInput.price (Sample.input_at Sample.ten))
            * pow10 (scale (Post.price o)))
    by (intros o [<- | []] _ _ _; vm_compute; discriminate).
  destruct (publish_price_exact Sample.env Sample.ids Sample.bob
              (Sample.input_at Sample.ten) Sample.published_10_01 Hvalid Hdiffer)
    as (_ & Hnone & Hcreate & _).
  split; [exact Hvalid |]. split; [exact Hnone |].
  rewrite Hcreate. split; vm_compute; reflexivity.
Defined.

(** The other way round: 10.01 after 10.00. *)
Example publish_10_01_after_10_00 :
  fst (publish Sample.env Sample.ids Sample.bob (Sample.input_at Sample.ten_01)
         Sample.published)
  = inr (ReturnsPost
           {| Post.id := Sample.ids 1;
              Post.productId := Sample.yerba;
              Post.commerceId := Sample.almacen;
              Post.image := "https://cdn.example.org/abc";
              Post.price := Sample.ten_01;
              Post.publishDate := Sample.today;
              Post.authorId := "bob" |}).
Proof. vm_compute. reflexivity. Qed.

(** 10.0 and 10.00 are one price. *)
Example publish_10_0_is_10_00 :
  fst (publish Sample.env Sample.ids Sample.alice
         (Sample.input_at {| coef := 100; scale := 1 |}) Sample.published)
  = inr ReturnsUndefined.
Proof. vm_compute. reflexivity. Qed.

(** The bucket does not hold the temporary object. *)
Lemma promote_image_not_found_witness :
  (objects (s3 Sample.missing_image) !! temporary Sample.env "abc" = None
   \/ head_failure (s3 Sample.missing_image) <> None)
  /\ fst (validateS3image Sample.env "abc" Sample.missing_image)
     = inl (TRPCError BAD_REQUEST (Some "IMAGE_KEY_NOT_FOUND"))
  /\ sent (s3 (snd (validateS3image Sample.env "abc" Sample.missing_image)))
     = [HeadObjectCommand "precios" "pre-abc"].
Proof.
  assert (Habsent : objects (s3 Sample.missing_image) !! temporary Sample.env "abc"
                    = None \/ head_failure (s3 Sample.missing_image) <> None)
    by (left; vm_compute; reflexivity).
  destruct (promote_image_not_found Sample.env Sample.ids "abc"
              Sample.missing_image Habsent) as (Hfails & Hsent & _).
  split; [exact Habsent |]. split; [exact Hfails |]. exact Hsent.
Defined.

(** The copy is answered without a result. *)
Lemma promote_copy_unconfirmed_witness :
  head_failure (s3 Sample.unconfirmed_copy) = None
  /\ is_Some (objects (s3 Sample.unconfirmed_copy) !! temporary Sample.env "abc")
  /\ copy_behaviour (s3 Sample.unconfirmed_copy) = CopyUnconfirmed false
  /\ fst (validateS3image Sample.env "abc" Sample.unconfirmed_copy)
     = inl (TRPCError INTERNAL_SERVER_ERROR (Some "IMAGE_VALIDATION_ERROR"))
  /\ objects (s3 (snd (validateS3image Sample.env "abc" Sample.unconfirmed_copy)))
       !! temporary Sample.env "abc"
     = Some Sample.photo.
Proof.
  assert (Hhead : head_failure (s3 Sample.unconfirmed_copy) = None) by reflexivity.
  assert (Hthere : is_Some (objects (s3 Sample.unconfirmed_copy)
                              !! temporary Sample.env "abc"))
    by (exists Sample.photo; vm_compute; reflexivity).
  assert (Hcopy : copy_behaviour (s3 Sample.unconfirmed_copy) = CopyUnconfirmed false)
    by reflexivity.
  destruct (promote_copy_unconfirmed Sample.env "abc" Sample.unconfirmed_copy
              false Hhead Hthere Hcopy) as (Hfails & _ & Hkept).
  split; [exact Hhead |]. split; [exact Hthere |]. split; [exact Hcopy |].
  split; [exact Hfails |]. rewrite Hkept. vm_compute. reflexivity.
Defined.

(** The healthy bucket: the object moves to the permanent key. *)
Lemma promote_moves_image_witness :
  no_slash (S3_BUCKET_NAME Sample.env) = true
  /\ objects (s3 Sample.fresh) !! temporary Sample.env "abc" = Some Sample.photo
  /\ head_failure (s3 Sample.fresh) = None
  /\ copy_behaviour (s3 Sample.fresh) = CopyCompletes
  /\ objects (s3 Sample.fresh) !! copied_from Sample.env "abc" = Some Sample.photo
  /\ objects (s3 (snd (validateS3image Sample.env "abc" Sample.fresh)))
       !! permanent Sample.env "abc" = Some Sample.photo
  /\ fst (validateS3image Sample.env "abc" Sample.fresh)
     = inr "https://cdn.example.org/abc"
  /\ objects (s3 (snd (validateS3image Sample.env "abc" Sample.fresh)))
       !! temporary Sample.env "abc" = None.
Proof.
  assert (Hslash : no_slash (S3_BUCKET_NAME Sample.env) = true) by reflexivity.
  assert (Hthere : objects (s3 Sample.fresh) !! temporary Sample.env "abc"
                   = Some Sample.photo) by (vm_compute; reflexivity).
  assert (Hhead : head_failure (s3 Sample.fresh) = None) by reflexivity.
  assert (Hcopy : copy_behaviour (s3 Sample.fresh) = CopyCompletes) by reflexivity.
  assert (Hsource : objects (s3 Sample.fresh) !! copied_from Sample.env "abc"
                    = Some Sample.photo) by (vm_compute; reflexivity).
  destruct (promote_moves_image Sample.env "abc" Sample.fresh Sample.photo
              Sample.photo Hslash Hthere Hhead Hcopy Hsource)
    as (Hperm & _ & Hurl & Hgone).
  repeat split; assumption.
Defined.

(** C7, as the claim has it, fails when the delete request is rejected:
    the temporary object exists and the copy is confirmed, yet promotion
    does not return the URL; it fails with the rejection of the delete,
    and the temporary object is still in place. *)
Lemma promote_surfaces_delete_failure :
  objects (s3 Sample.failing_delete) !! temporary Sample.env "abc"
    = Some Sample.photo
  /\ head_failure (s3 Sample.failing_delete) = None
  /\ copy_behaviour (s3 Sample.failing_delete) = CopyCompletes
  /\ objects (s3 (snd (validateS3image Sample.env "abc" Sample.failing_delete)))
       !! permanent Sample.env "abc" = Some Sample.photo
  /\ fst (validateS3image Sample.env "abc" Sample.failing_delete)
     = inl (S3ServiceException "InternalError")
  /\ fst (validateS3image Sample.env "abc" Sample.failing_delete)
     <> inr (S3_BUCKET_URL Sample.env +:+ "/" +:+ "abc")
  /\ objects (s3 (snd (validateS3image Sample.env "abc" Sample.failing_delete)))
       !! temporary Sample.env "abc" = Some Sample.photo.
Proof.
  repeat split; try (vm_compute; reflexivity).
  vm_compute. discriminate.
Qed.

(** Alice deletes her Offer. *)
Lemma deleteOwnPost_gated_witness :
  z_uuid (Sample.ids 0) = true
  /\ List.NoDup (map Post.id (posts (db Sample.published)))
  /\ fst (deleteOwnPost Sample.alice (Sample.ids 0) Sample.published)
     = inr Sample.alice_offer
  /\ deleteOwnPost Sample.bob (Sample.ids 0) Sample.published
     = (inl (TRPCError FORBIDDEN (Some "No eres el autor de la publicación")),
        Sample.published)
  /\ deleteOwnPost Sample.alice (Sample.ids 1) Sample.published
     = (inl (TRPCError NOT_FOUND None), Sample.published).
Proof.
  assert (Hvalid0 : z_uuid (Sample.ids 0) = true) by (vm_compute; reflexivity).
  assert (Hvalid1 : z_uuid (Sample.ids 1) = true) by (vm_compute; reflexivity).
  assert (Hkey : List.NoDup (map Post.id (posts (db Sample.published))))
    by (repeat constructor; intros []).
  assert (Hin : In Sample.alice_offer (posts (db Sample.published)))
    by (left; reflexivity).
  split; [exact Hvalid0 |]. split; [exact Hkey |].
  destruct (deleteOwnPost_gated Sample.alice (Sample.ids 0) Sample.published
              Hvalid0 Hkey) as (_ & Hpresent).
  destruct (Hpresent Sample.alice_offer Hin eq_refl) as (_ & Hown).
  destruct (Hown eq_refl) as (Hreturned & _).
  split; [exact Hreturned |]. split.
  - destruct (deleteOwnPost_gated Sample.bob (Sample.ids 0) Sample.published
                Hvalid0 Hkey) as (_ & Hother).
    destruct (Hother Sample.alice_offer Hin eq_refl) as (Hforbidden & _).
    apply Hforbidden. discriminate.
  - destruct (deleteOwnPost_gated Sample.alice (Sample.ids 1) Sample.published
                Hvalid1 Hkey) as (Habsent & _).
    apply Habsent. intros p [<- | []]. vm_compute. discriminate.
Defined.

(** ** The further statements at the sample data *)

(** Promoting "abc" leaves the upload "def" alone. *)
Lemma promote_touches_two_keys_witness :
  ("precios", "pre-def") <> temporary Sample.env "abc"
  /\ ("precios", "pre-def") <> permanent Sample.env "abc"
  /\ objects (s3 (snd (validateS3image Sample.env "abc" Tour.morning)))
       !! ("precios", "pre-def")
     = objects (s3 Tour.morning) !! ("precios", "pre-def").
Proof.
  assert (Htemp : ("precios", "pre-def") <> temporary Sample.env "abc")
    by discriminate.
  assert (Hperm : ("precios", "pre-def") <> permanent Sample.env "abc")
    by discriminate.
  split; [exact Htemp |]. split; [exact Hperm |].
  apply (promote_touches_two_keys Sample.env "abc" Tour.morning _ Htemp Hperm).
Defined.

Lemma promote_returns_means_moved_witness :
  no_slash (S3_BUCKET_NAME Sample.env) = true
  /\ fst (validateS3image Sample.env "abc" Sample.fresh)
     = inr "https://cdn.example.org/abc"
  /\ objects (s3 (snd (validateS3image Sample.env "abc" Sample.fresh)))
       !! temporary Sample.env "abc" = None.
Proof.
  assert (Hslash : no_slash (S3_BUCKET_NAME Sample.env) = true) by reflexivity.
  assert (Hreturn : fst (validateS3image Sample.env "abc" Sample.fresh)
                    = inr "https://cdn.example.org/abc")
    by (vm_compute; reflexivity).
  split; [exact Hslash |]. split; [exact Hreturn |].
  destruct (promote_returns_means_moved Sample.env "abc" Sample.fresh _
              Hslash Hreturn) as (_ & _ & Hgone & _).
  exact Hgone.
Defined.

(** The delete is rejected: the image stays under the temporary key. *)
Lemma promote_never_loses_image_witness :
  no_slash (S3_BUCKET_NAME Sample.env) = true
  /\ url_safe "abc" = true
  /\ objects (s3 Sample.failing_delete) !! temporary Sample.env "abc"
     = Some Sample.photo
  /\ (objects (s3 (snd (validateS3image Sample.env "abc" Sample.failing_delete)))
        !! temporary Sample.env "abc" = Some Sample.photo
      \/ objects (s3 (snd (validateS3image Sample.env "abc" Sample.failing_delete)))
           !! permanent Sample.env "abc" = Some Sample.photo).
Proof.
  assert (Hslash : no_slash (S3_BUCKET_NAME Sample.env) = true) by reflexivity.
  assert (Hsafe : url_safe "abc" = true) by reflexivity.
  assert (Hthere : objects (s3 Sample.failing_delete) !! temporary Sample.env "abc"
                   = Some Sample.photo) by (vm_compute; reflexivity).
  split; [exact Hslash |]. split; [exact Hsafe |]. split; [exact Hthere |].
  apply (promote_never_loses_image Sample.env "abc" Sample.failing_delete
           Sample.photo Hslash Hsafe Hthere).
Defined.

(** Alice creates again what she published an hour ago: two Offers. *)
Lemma create_adds_offer_regardless_witness :
  publish_schema (Sample.input_at Sample.ten) = []
  /\ references_exist Sample.published Sample.alice (Sample.input_at Sample.ten)
  /\ price_fits Sample.published (Sample.input_at Sample.ten)
  /\ existentPost Sample.published (Sample.input_at Sample.ten)
     = Some Sample.alice_offer
  /\ List.length
       (posts (db (snd (create Sample.env Sample.ids Sample.alice
                          (Sample.input_at Sample.ten) Sample.published))))
     = 2%nat.
Proof.
  assert (Hvalid : publish_schema (Sample.input_at Sample.ten) = [])
    by (vm_compute; reflexivity).
  assert (Hrows : references_exist Sample.published Sample.alice
                    (Sample.input_at Sample.ten))
    by (repeat split; simpl; auto).
  assert (Hfits : price_fits Sample.published (Sample.input_at Sample.ten))
    by (vm_compute; reflexivity).
  split; [exact Hvalid |]. split; [exact Hrows |]. split; [exact Hfits |].
  split; [vm_compute; reflexivity |].
  pose proof (create_adds_offer_regardless Sample.env Sample.ids Sample.alice
                (Sample.input_at Sample.ten) Sample.published Hvalid Hrows Hfits)
    as Hcreate.
  destruct (validateS3image Sample.env _ Sample.published)
    as [[e|imageUrl] promoted] eqn:Hpromote.
  - vm_compute in Hpromote. discriminate.
  - destruct Hcreate as (_ & Hposts & _). rewrite Hposts, length_app.
    reflexivity.
Defined.

Lemma publish_keeps_one_offer_per_key_witness :
  (scale (PublishInput.price (Sample.input_at Sample.ten_01))
   <= price_scale (db Sample.published))%nat
  /\ one_offer_per_key Sample.published
  /\ one_offer_per_key
       (snd (publish Sample.env Sample.ids Sample.bob
               (Sample.input_at Sample.ten_01) Sample.published)).
Proof.
  assert (Hscale : (scale (PublishInput.price (Sample.input_at Sample.ten_01))
                    <= price_scale (db Sample.published))%nat)
    by (simpl; lia).
  assert (Hone : one_offer_per_key Sample.published)
    by (intros p q [<- | []] [<- | []] _ _ _ _ _; reflexivity).
  split; [exact Hscale |]. split; [exact Hone |].
  apply (publish_keeps_one_offer_per_key Sample.env Sample.ids Sample.bob
           (Sample.input_at Sample.ten_01) Sample.published Hscale Hone).
Defined.

(** Alice publishes, and an hour later Alice and Bob publish the same. *)
Lemma republish_same_day_witness :
  fst (publish Sample.env Sample.ids Sample.alice (Sample.input_at Sample.ten)
         Sample.fresh)
    = inr (ReturnsPost
             (new_offer Sample.ids Sample.alice (Sample.input_at Sample.ten)
                "https://cdn.example.org/abc" Sample.fresh))
  /\ (scale (PublishInput.price (Sample.input_at Sample.ten))
      <= price_scale (db Sample.fresh))%nat
  /\ dayStart Sample.fresh <= Sample.today + 3600000 < dayStart Sample.fresh + day_ms
  /\ fst (publish Sample.env Sample.ids Sample.bob (Sample.input_at Sample.ten)
            (Tour.at_ (Sample.today + 3600000)
               (snd (publish Sample.env Sample.ids Sample.alice
                       (Sample.input_at Sample.ten) Sample.fresh))))
     = inr (ReturnsColaboration
              {| Colaboration.id := Sample.ids 1;
                 Colaboration.postId := Sample.ids 0;
                 Colaboration.userId := "bob" |}).
Proof.
  assert (Hreturned :
    fst (publish Sample.env Sample.ids Sample.alice (Sample.input_at Sample.ten)
           Sample.fresh)
    = inr (ReturnsPost
             (new_offer Sample.ids Sample.alice (Sample.input_at Sample.ten)
                "https://cdn.example.org/abc" Sample.fresh)))
    by (vm_compute; reflexivity).
  assert (Hday : dayStart Sample.fresh <= Sample.today + 3600000
                 < dayStart Sample.fresh + day_ms)
    by (split; vm_compute; [discriminate | reflexivity]).
  assert (Hscale : (scale (PublishInput.price (Sample.input_at Sample.ten))
                    <= price_scale (db Sample.fresh))%nat) by (simpl; lia).
  split; [exact Hreturned |]. split; [exact Hscale |]. split; [exact Hday |].
  assert (Hposts :
    posts (db (Tour.at_ (Sample.today + 3600000)
                 (snd (publish Sample.env Sample.ids Sample.alice
                         (Sample.input_at Sample.ten) Sample.fresh))))
    = posts (db (snd (publish Sample.env Sample.ids Sample.alice
                        (Sample.input_at Sample.ten) Sample.fresh))))
    by (vm_compute; reflexivity).
  destruct (republish_same_day Sample.env Sample.ids Sample.alice
              (Sample.input_at Sample.ten) Sample.fresh
              (Tour.at_ (Sample.today + 3600000)
                 (snd (publish Sample.env Sample.ids Sample.alice
                         (Sample.input_at Sample.ten) Sample.fresh)))
              (new_offer Sample.ids Sample.alice (Sample.input_at Sample.ten)
                 "https://cdn.example.org/abc" Sample.fresh)
              Hreturned Hscale Hposts Hday) as (_ & Hother).
  assert (Hbob : session_user_id Sample.bob <> session_user_id Sample.alice)
    by discriminate.
  assert (Huser :
    In (session_user_id Sample.bob)
       (users (db (Tour.at_ (Sample.today + 3600000)
                     (snd (publish Sample.env Sample.ids Sample.alice
                             (Sample.input_at Sample.ten) Sample.fresh))))))
    by (vm_compute; auto).
  rewrite (Hother Sample.bob Hbob Huser). vm_compute. reflexivity.
Defined.

(** Alice publishes, and a day later the Offer is no duplicate. *)
Lemma republish_next_day_witness :
  fst (publish Sample.env Sample.ids Sample.alice (Sample.input_at Sample.ten)
         Sample.fresh)
    = inr (ReturnsPost
             (new_offer Sample.ids Sample.alice (Sample.input_at Sample.ten)
                "https://cdn.example.org/abc" Sample.fresh))
  /\ dayStart Sample.fresh + day_ms <= Sample.today + day_ms
  /\ existentPost
       (Tour.at_ (Sample.today + day_ms)
          (snd (publish Sample.env Sample.ids Sample.alice
                  (Sample.input_at Sample.ten) Sample.fresh)))
       (Sample.input_at Sample.ten) = None.
Proof.
  assert (Hreturned :
    fst (publish Sample.env Sample.ids Sample.alice (Sample.input_at Sample.ten)
           Sample.fresh)
    = inr (ReturnsPost
             (new_offer Sample.ids Sample.alice (Sample.input_at Sample.ten)
                "https://cdn.example.org/abc" Sample.fresh)))
    by (vm_compute; reflexivity).
  assert (Hday : dayStart Sample.fresh + day_ms <= Sample.today + day_ms)
    by (vm_compute; discriminate).
  split; [exact Hreturned |]. split; [exact Hday |].
  assert (Hposts :
    posts (db (Tour.at_ (Sample.today + day_ms)
                 (snd (publish Sample.env Sample.ids Sample.alice
                         (Sample.input_at Sample.ten) Sample.fresh))))
    = posts (db (snd (publish Sample.env Sample.ids Sample.alice
                        (Sample.input_at Sample.ten) Sample.fresh))))
    by (vm_compute; reflexivity).
  destruct (republish_next_day Sample.env Sample.ids Sample.alice Sample.bob
              (Sample.input_at Sample.ten) Sample.fresh
              (Tour.at_ (Sample.today + day_ms)
                 (snd (publish Sample.env Sample.ids Sample.alice
                         (Sample.input_at Sample.ten) Sample.fresh)))
              (new_offer Sample.ids Sample.alice (Sample.input_at Sample.ten)
                 "https://cdn.example.org/abc" Sample.fresh)
              Hreturned Hposts Hday) as (_ & Hnone & _).
  exact Hnone.
Defined.

Lemma deleteOwnPost_removes_one_or_nothing_witness :
  List.NoDup (map Post.id (posts (db Sample.published)))
  /\ fst (getCount Sample.published) = inr 1%nat
  /\ fst (getCount (snd (deleteOwnPost Sample.alice (Sample.ids 0)
                           Sample.published))) = inr 0%nat
  /\ snd (deleteOwnPost Sample.bob (Sample.ids 0) Sample.published)
     = Sample.published.
Proof.
  assert (Hkey : List.NoDup (map Post.id (posts (db Sample.published))))
    by (repeat constructor; intros []).
  split; [exact Hkey |]. split; [reflexivity |]. split.
  - generalize (deleteOwnPost_removes_one_or_nothing Sample.alice (Sample.ids 0)
                  Sample.published Hkey).
    vm_compute. intros (_ & _ & _ & n & Hafter & Hbefore).
    injection Hbefore as <-. exact Hafter.
  - generalize (deleteOwnPost_removes_one_or_nothing Sample.bob (Sample.ids 0)
                  Sample.published Hkey).
    vm_compute. intros H. exact H.
Defined.

Lemma deleteOwnPost_then_gone_witness :
  fst (deleteOwnPost Sample.alice (Sample.ids 0) Sample.published)
    = inr Sample.alice_offer
  /\ fst (getById Sample.bob (Sample.ids 0)
            (snd (deleteOwnPost Sample.alice (Sample.ids 0) Sample.published)))
     = inr None.
Proof.
  assert (Hdeleted : fst (deleteOwnPost Sample.alice (Sample.ids 0) Sample.published)
                     = inr Sample.alice_offer) by (vm_compute; reflexivity).
  split; [exact Hdeleted |].
  destruct (deleteOwnPost_then_gone Sample.alice Sample.bob (Sample.ids 0)
              Sample.published Sample.alice_offer Hdeleted) as (Hgone & _).
  now rewrite Hgone.
Defined.

Lemma getOwnPosts_are_the_deletable_witness :
  List.NoDup (map Post.id (posts (db Sample.feed)))
  /\ fst (getOwnPosts Sample.alice Sample.feed)
     = inr [detail (db Sample.feed) Sample.thirty_late;
            detail (db Sample.feed) Sample.fifty].
Proof.
  assert (Hkey : List.NoDup (map Post.id (posts (db Sample.feed)))).
  { repeat constructor; simpl; intros H;
      repeat (destruct H as [H | H]; [discriminate |]); exact H. }
  split; [exact Hkey |].
  destruct (getOwnPosts_are_the_deletable Sample.alice Sample.feed Hkey)
    as (rows & Hrows & _).
  rewrite Hrows. vm_compute in Hrows. injection Hrows as <-.
  vm_compute. reflexivity.
Defined.

Lemma publish_then_getById_witness :
  fst (publish Sample.env Sample.ids Sample.alice (Sample.input_at Sample.ten)
         Sample.fresh)
    = inr (ReturnsPost
             (new_offer Sample.ids Sample.alice (Sample.input_at Sample.ten)
                "https://cdn.example.org/abc" Sample.fresh))
  /\ z_uuid (Sample.ids 0) = true
  /\ option_map PostDetail.post
       (match fst (getById Sample.bob (Sample.ids 0)
                     (snd (publish Sample.env Sample.ids Sample.alice
                             (Sample.input_at Sample.ten) Sample.fresh))) with
        | inr found => found
        | inl _ => None
        end)
     = Some (new_offer Sample.ids Sample.alice (Sample.input_at Sample.ten)
               "https://cdn.example.org/abc" Sample.fresh).
Proof.
  assert (Hreturned :
    fst (publish Sample.env Sample.ids Sample.alice (Sample.input_at Sample.ten)
           Sample.fresh)
    = inr (ReturnsPost
             (new_offer Sample.ids Sample.alice (Sample.input_at Sample.ten)
                "https://cdn.example.org/abc" Sample.fresh)))
    by (vm_compute; reflexivity).
  assert (Hvalid : z_uuid (Sample.ids 0) = true) by (vm_compute; reflexivity).
  split; [exact Hreturned |]. split; [exact Hvalid |].
  destruct (publish_then_getById Sample.env Sample.ids Sample.alice Sample.bob
              (Sample.input_at Sample.ten) Sample.fresh _ Hreturned Hvalid
              (fun p (H : In p []) => match H with end)) as (Hread & _).
  change (Sample.ids 0)
    with (Post.id (new_offer Sample.ids Sample.alice (Sample.input_at Sample.ten)
                     "https://cdn.example.org/abc" Sample.fresh)).
  rewrite Hread. reflexivity.
Defined.

Lemma product_create_outcome_witness :
  product_create_schema Tour.new_product = []
  /\ ~ In (ProductCreateInput.name Tour.new_product)
         (map Product.name (products (db Sample.catalogue)))
  /\ In (ProductCreateInput.categoryId Tour.new_product)
        (categories (db Sample.catalogue))
  /\ fst (product_create Sample.ids Sample.alice Tour.new_product Sample.catalogue)
     = inr tt
  /\ List.length
       (products (db (snd (product_create Sample.ids Sample.alice
                             Tour.new_product Sample.catalogue)))) = 2%nat.
Proof.
  assert (Hvalid : product_create_schema Tour.new_product = [])
    by (vm_compute; reflexivity).
  assert (Hfree : ~ In (ProductCreateInput.name Tour.new_product)
                      (map Product.name (products (db Sample.catalogue))))
    by (intros [H | []]; discriminate).
  assert (Hcat : In (ProductCreateInput.categoryId Tour.new_product)
                   (categories (db Sample.catalogue))) by (left; reflexivity).
  split; [exact Hvalid |]. split; [exact Hfree |]. split; [exact Hcat |].
  destruct (product_create_outcome Sample.ids Sample.alice Tour.new_product
              Sample.catalogue Hvalid) as (_ & _ & Hadds).
  destruct (Hadds Hfree Hcat) as (Hdone & Hrows & _).
  split; [exact Hdone |]. now rewrite Hrows.
Defined.

Lemma product_update_renames_witness :
  product_update_schema Tour.rename_yerba = []
  /\ In (ProductUpdateInput.categoryId Tour.rename_yerba)
        (categories (db Sample.catalogue))
  /\ fst (product_update Sample.alice Tour.rename_yerba Sample.catalogue)
     = inr (Some {| Product.id := Sample.yerba; Product.name := "Yerba mate";
                    Product.categoryId := Sample.almacen |}).
Proof.
  assert (Hvalid : product_update_schema Tour.rename_yerba = [])
    by (vm_compute; reflexivity).
  assert (Hin : In {| Product.id := Sample.yerba; Product.name := "Yerba";
                      Product.categoryId := Sample.almacen |}
                  (products (db Sample.catalogue))) by (left; reflexivity).
  assert (Hfree : forall r, In r (products (db Sample.catalogue)) ->
            Product.id r <> ProductUpdateInput.id Tour.rename_yerba ->
            Product.name r <> ProductUpdateInput.name Tour.rename_yerba)
    by (intros r [<- | []] Hne; now contradiction Hne).
  assert (Hcat : In (ProductUpdateInput.categoryId Tour.rename_yerba)
                   (categories (db Sample.catalogue))) by (left; reflexivity).
  split; [exact Hvalid |]. split; [exact Hcat |].
  destruct (product_update_renames Sample.alice Tour.rename_yerba Sample.catalogue
              _ Hvalid Hin eq_refl Hfree Hcat) as (Hrenamed & _).
  exact Hrenamed.
Defined.

(** A JPEG is uploaded to the empty bucket under a signed key and
    promoted. *)
Lemma upload_then_promote_witness :
  getImageSignedUrl_schema Tour.jpeg = []
  /\ z_uuid (Sample.ids 0) = true
  /\ no_slash (S3_BUCKET_NAME Sample.env) = true
  /\ healthy (s3 Sample.missing_image)
  /\ exists signed,
       getImageSignedUrl Sample.env (Sample.ids 0) Sample.alice Tour.jpeg
         Sample.missing_image = (inr signed, Sample.missing_image)
       /\ fst (validateS3image Sample.env (Sample.ids 0)
                 (uploaded (url signed) Sample.photo Sample.missing_image))
          = inr (S3_BUCKET_URL Sample.env +:+ "/" +:+ Sample.ids 0).
Proof.
  assert (Hvalid : getImageSignedUrl_schema Tour.jpeg = [])
    by (vm_compute; reflexivity).
  assert (Huuid : z_uuid (Sample.ids 0) = true) by (vm_compute; reflexivity).
  assert (Hslash : no_slash (S3_BUCKET_NAME Sample.env) = true) by reflexivity.
  assert (Hhealthy : healthy (s3 Sample.missing_image))
    by (repeat split).
  split; [exact Hvalid |]. split; [exact Huuid |]. split; [exact Hslash |].
  split; [exact Hhealthy |].
  destruct (upload_then_promote Sample.env Sample.ids (Sample.ids 0) Sample.photo
              Sample.alice Tour.jpeg Sample.missing_image Hvalid Huuid Hslash
              Hhealthy)
    as (signed & Hsigned & Hkey & _ & _ & Hpromoted & _).
  exists signed. split; [exact Hsigned |].
  rewrite Hkey in Hpromoted. exact Hpromoted.
Defined.
